(** * tclx/train/finetune_base.py: a shallow embedding and its properties

    The script fine-tunes a causal language model: it splits a dataset into a
    2% evaluation shard and a training shard, wraps both in an adapter, runs
    the framework's training loop with a sampling callback and saves the model.

    Python integers are [Z]; Python floats are IEEE binary64 values, taken from
    the Standard Library's executable specification [SpecFloat]; dictionaries
    with string keys are [gmap string _]; 1-D tensors are [list Z] and 2-D
    tensors lists of rows.  Library calls with an observable effect (model
    loading, experiment tracking, generation, saving) are recorded as events in
    a trace; exceptions are values of [exn]. *)

From Stdlib Require Import ZArith Lia Bool.
From Stdlib Require Import Floats.SpecFloat.
From stdpp Require Import gmap strings list.

Local Set Warnings "-register-all".
Local Open Scope Z_scope.

(** ** Python values and exceptions *)

Inductive pyval :=
  | VNone
  | VBool (b : bool)
  | VInt (z : Z)
  | VFloat (f : spec_float)
  | VStr (s : string)
  | VList (l : list pyval)
  | VDict (d : gmap string pyval).

(** [ValueError template args] stands for [ValueError(template.format( *args))]. *)
Inductive exn :=
  | KeyError (key : string)
  | TypeError (what : string)
  | ValueError (template : string) (args : list pyval)
  | OverflowError
  | ZeroDivisionError
  | IndexError
  | RuntimeError (msg : string).

Definition result (A : Type) : Type := exn + A.

Definition bindR {A B} (r : result A) (k : A -> result B) : result B :=
  match r with
  | inl e => inl e
  | inr a => k a
  end.

Notation "'try' x <- r ; k" := (bindR r (fun x => k))
  (at level 10, x pattern, r at level 100, k at level 200).

(** [len(l)] *)
Definition len {A} (l : list A) : Z := Z.of_nat (length l).

(** [range(n)]: empty when [n <= 0]. *)
Definition py_range (n : Z) : list Z := Z.of_nat <$> seq 0 (Z.to_nat n).

(** Index adjustment of a slice bound: negative bounds count from the end and
    the result is clamped to [0, n]. *)
Definition slice_index (n i : Z) : Z :=
  Z.max 0 (Z.min n (if i <? 0 then i + n else i)).

(** [l[a:b]] *)
Definition py_slice {A} (l : list A) (a b : Z) : list A :=
  let a' := slice_index (len l) a in
  let b' := slice_index (len l) b in
  take (Z.to_nat (b' - a')) (drop (Z.to_nat a') l).

(** [a // b] *)
Definition floordiv (a b : Z) : result Z :=
  if b =? 0 then inl ZeroDivisionError else inr (a / b).

(** [d[k]] on a dictionary *)
Definition getitem (d : gmap string pyval) (k : string) : result pyval :=
  match d !! k with
  | Some v => inr v
  | None => inl (KeyError k)
  end.

(** [v[k]] on an arbitrary value with a string key *)
Definition subscript (v : pyval) (k : string) : result pyval :=
  match v with
  | VDict d => getitem d k
  | _ => inl (TypeError "subscript")
  end.

(** [v[k] = x]; the dictionary is updated in place, so the new value is what
    every holder of [v] sees afterwards. *)
Definition store_subscript (v : pyval) (k : string) (x : pyval) : result pyval :=
  match v with
  | VDict d => inr (VDict (<[k := x]> d))
  | _ => inl (TypeError "item assignment")
  end.

(** [**v] in a call *)
Definition kwargs (v : pyval) : result (gmap string pyval) :=
  match v with
  | VDict d => inr d
  | _ => inl (TypeError "argument after ** must be a mapping")
  end.

(** [v == s] for a string literal [s] *)
Definition eq_str (v : pyval) (s : string) : bool :=
  match v with
  | VStr s' => bool_decide (s' = s)
  | _ => false
  end.

(** ** Binary64 arithmetic, as used by [int(len(data) * 0.02)] *)

Definition prec : Z := 53.
Definition emax : Z := 1024.

(** [float(n)] for a Python integer: round to nearest even, [OverflowError]
    when the result is not finite. *)
Definition float_of_int (n : Z) : result spec_float :=
  match binary_normalize prec emax n 0 false with
  | S754_infinity _ => inl OverflowError
  | f => inr f
  end.

(** [int(x)]: truncation towards zero. *)
Definition int_of_float (f : spec_float) : result Z :=
  match f with
  | S754_zero _ => inr 0
  | S754_finite s m e => inr (cond_Zopp s (Z.shiftl (Z.pos m) e))
  | S754_infinity _ => inl OverflowError
  | S754_nan => inl (ValueError "cannot convert float NaN to integer" [])
  end.

(** The literal [0.02]: the double nearest to 1/50, 0x1.47ae147ae147bp-6. *)
Definition m_0_02 : positive := 5764607523034235.
Definition float_0_02 : spec_float := S754_finite false m_0_02 (-58).

Definition float_mul : spec_float -> spec_float -> spec_float := SFmul prec emax.

(** The positive double with mantissa [m] and exponent [e], or infinity when
    the exponent is out of range: the last step of every rounding. *)
Definition finite_or_inf (m e : Z) : spec_float :=
  if e <=? emax - prec then S754_finite false (Z.to_pos m) e else S754_infinity false.

(** ** Tensors *)

Module torch.

Abbreviation tensor1 := (list Z).
Abbreviation tensor2 := (list (list Z)).

(** [torch.flip(t, dims=[0])] on a 1-D tensor *)
Definition flip0 (t : tensor1) : tensor1 := reverse t.

(** [torch.flip(t, dims=[1])] on a 2-D tensor *)
Definition flip1 (t : tensor2) : tensor2 := reverse <$> t.

(** [pad_sequence(seqs, batch_first=True, padding_value=v)]: every sequence is
    extended on the right to the length of the longest one. *)
Definition pad_sequence (seqs : list tensor1) (padding_value : Z) : result tensor2 :=
  match seqs with
  | [] => inl (RuntimeError "received an empty list of sequences")
  | _ =>
      let max_len := max_list (length <$> seqs) in
      inr ((fun s => s ++ replicate (max_len - length s) padding_value) <$> seqs)
  end.

(** [torch.stack(ts)] on 1-D tensors *)
Definition stack (ts : list tensor1) : result tensor2 :=
  match ts with
  | [] => inl (RuntimeError "stack expects a non-empty TensorList")
  | t :: _ =>
      if forallb (fun u => (length u =? length t)%nat) ts then inr ts
      else inl (RuntimeError "stack expects each tensor to be equal size")
  end.

(** The shape of a 2-D tensor with at least one row. *)
Definition shape (t : tensor2) : nat * nat :=
  (length t, match t with [] => 0%nat | r :: _ => length r end).

End torch.

(** ** The outside world

    Everything the script obtains from libraries it does not define: the
    tokenizer, the dataset on disk, the sampling model, the adapter classes of
    [tclx.data.datasets], the YAML loader of [tclx.utils.utils] and what the
    framework's training loop does. *)

Record tokenizer := {
  encode : string -> list Z;            (* tok(text).input_ids *)
  decode : list Z -> string;            (* one row of tok.batch_decode *)
  eos_token : string;
  pad_token : option string;
  token_to_id : string -> Z;            (* tok.convert_tokens_to_ids(token) *)
}.

(** [tok.pad_token_id]: the vocabulary id of the pad token, None without one. *)
Definition pad_token_id (tk : tokenizer) : option Z :=
  token_to_id tk <$> pad_token tk.

Inductive adapter := SFTDataset | MaskedSFTDataset.

(** A step of [Trainer.train()]: an optimisation step, an evaluation (which
    fires the callbacks' [on_evaluate]) or a failure inside the framework. *)
Inductive trainer_step :=
  | StepTrain
  | StepEvaluate
  | StepFail (e : exn).

Record World := {
  rank : Z;                                        (* torch.distributed.get_rank() *)
  load_yaml : pyval -> pyval;                      (* tclx.utils.utils.load_yaml *)
  from_pretrained : pyval -> tokenizer;            (* AutoTokenizer.from_pretrained *)
  load_dataset : pyval -> list pyval;              (* load_dataset(path)["train"] *)
  adapter_prompts : adapter -> list pyval -> list string;   (* the adapter's .prompts *)
  generate : nat -> nat -> torch.tensor2 -> Z -> torch.tensor2;
                     (* model.generate(batch, max_length, do_sample=True): the
                        sample drawn in evaluation round r for batch i *)
  schedule : list trainer_step;                    (* the run of Trainer.train() *)
}.

Record model := {
  weights : pyval;                                 (* config["model_path"] *)
  tok : tokenizer;                                 (* model.tok *)
}.

Record sft_dataset := {
  kind : adapter;
  rows : list pyval;
  prompts : list string;
}.

Record table := {
  columns : list string;
  data : list (list string);
}.

Inductive event :=
  | ETokenizerFromPretrained (path : pyval)
  | ETrainingArguments (args : gmap string pyval)
  | EModelFromPretrained (path : pyval)
  | EModelCuda
  | ELoadDataset (path : pyval)
  | EWandbInit (project : string) (config : gmap string pyval)
  | EPrint (msg : string) (n : Z)
  | ETrainer (train_dataset eval_dataset : sft_dataset)
  | ETrainBegin
  | EGenerate (batch : torch.tensor2) (max_length : Z)
  | EWandbLog (key : string) (t : table)
  | ETrainEnd
  | ESavePretrained (dir : pyval).

(** ** Effects: a trace of events and an exception *)

Definition M (A : Type) : Type := result A * list event.

Definition ret {A} (a : A) : M A := (inr a, []).
Definition raise {A} (e : exn) : M A := (inl e, []).
Definition emit (ev : event) : M unit := (inr tt, [ev]).
Definition lift {A} (r : result A) : M A := (r, []).

Definition bindM {A B} (m : M A) (k : A -> M B) : M B :=
  match m with
  | (inl e, t) => (inl e, t)
  | (inr a, t) => let '(r, t') := k a in (r, t ++ t')
  end.

Notation "'do' x <- m ; k" := (bindM m (fun x => k))
  (at level 10, x pattern, m at level 100, k at level 200).

(** ** call_model *)

(** [tok(tok.pad_token).input_ids[0]] *)
Definition padding_value (tk : tokenizer) : result Z :=
  match pad_token tk with
  | None => inl (ValueError "text input must of type str" [])
  | Some p =>
      match encode tk p with
      | [] => inl IndexError
      | v :: _ => inr v
      end
  end.

(** Lines 25-29: flip every prompt, pad on the right, flip the batch back. *)
Definition flip_pad_flip (batch : list torch.tensor1) (pad : Z) : result torch.tensor2 :=
  let batch := torch.flip0 <$> batch in
  try batch <- torch.pad_sequence batch pad;
  inr (torch.flip1 batch).

Definition num_batches (n batch_size : Z) : result Z :=
  floordiv (n + batch_size - 1) batch_size.

Definition prompt_batches {A} (prompts : list A) (batch_size : Z) : result (list (list A)) :=
  try nb <- num_batches (len prompts) batch_size;
  inr ((fun i => py_slice prompts (i * batch_size) ((i + 1) * batch_size)) <$> py_range nb).

(** The body of the loop over [enumerate(prompt_batches)], with [answers] as
    accumulator; [i] is the index of the first batch of [batches]. *)
Fixpoint call_model_loop (w : World) (round : nat) (m : model) (max_length : Z)
    (i : nat) (batches : list (list torch.tensor1)) (answers : list string)
    : M (list string) :=
  match batches with
  | [] => ret answers
  | batch :: rest =>
      do pad <- lift (padding_value (tok m));
      do batch <- lift (flip_pad_flip batch pad);
      do _ <- emit (EGenerate batch max_length);
      let output := generate w round i batch max_length in
      let output := decode (tok m) <$> output in
      call_model_loop w round m max_length (S i) rest (answers ++ output)
  end.

Definition call_model (w : World) (round : nat) (m : model) (prompts : list string)
    (batch_size max_length : Z) : M (list string) :=
  let prompts := encode (tok m) <$> prompts in
  do batches <- lift (prompt_batches prompts batch_size);
  call_model_loop w round m max_length 0 batches [].

(** ** SampleCallback.on_evaluate *)

Definition on_evaluate (w : World) (round : nat) (m : model) (dataset : sft_dataset)
    : M unit :=
  let prompts := py_slice (prompts dataset) 0 16 in
  do responses <- call_model w round m prompts 16 500;
  if rank w =? 0 then
    let response_table :=
      {| columns := ["prompts"; "responses"];
         data := zip_with (fun prompt response => [prompt; response]) prompts responses |} in
    emit (EWandbLog "generations" response_table)
  else ret tt.

(** ** train *)

(** Line 62: [int(len(data) * 0.02)] *)
Definition eval_size (n : Z) : result Z :=
  try x <- float_of_int n;
  int_of_float (float_mul x float_0_02).

(** The index lists of lines 63 and 64. *)
Definition split_indices (n : Z) : result (list Z * list Z) :=
  try eval_size <- eval_size n;
  inr (py_range eval_size, (fun i => eval_size + i) <$> py_range (n - eval_size)).

(** [data.select(indices)]: the rows at the given positions, in order. *)
Definition select {A} (data : list A) (indices : list Z) : result (list A) :=
  if forallb (fun i => (0 <=? i) && (i <? len data)) indices
  then inr (omap (fun i => data !! Z.to_nat i) indices)
  else inl IndexError.

Definition split_dataset {A} (data : list A) : result (list A * list A) :=
  try (eval_indices, train_indices) <- split_indices (len data);
  try eval_data <- select data eval_indices;
  try data <- select data train_indices;
  inr (eval_data, data).

(** An example of the adapter: input ids, attention mask, labels. *)
Abbreviation example := (list Z * list Z * list Z)%type.

(** Lines 86-90, the collation function handed to the trainer. *)
Definition data_collator (data : list example) : result (gmap string torch.tensor2) :=
  try input_ids <- torch.stack ((fun f => f.1.1) <$> data);
  try attention_mask <- torch.stack ((fun f => f.1.2) <$> data);
  try labels <- torch.stack ((fun f => f.2) <$> data);
  inr (<["input_ids" := input_ids]>
         (<["attention_mask" := attention_mask]> (<["labels" := labels]> ∅))).

(** [Trainer.train()]: the framework runs its schedule, calling the sampling
    callback at every evaluation. *)
Fixpoint trainer_loop (w : World) (m : model) (eval_dataset : sft_dataset)
    (steps : list trainer_step) (round : nat) : M unit :=
  match steps with
  | [] => ret tt
  | StepTrain :: rest => trainer_loop w m eval_dataset rest round
  | StepEvaluate :: rest =>
      do _ <- on_evaluate w round m eval_dataset;
      trainer_loop w m eval_dataset rest (S round)
  | StepFail e :: _ => raise e
  end.

Definition trainer_train (w : World) (m : model) (eval_dataset : sft_dataset) : M unit :=
  do _ <- emit ETrainBegin;
  do _ <- trainer_loop w m eval_dataset (schedule w) 0;
  emit ETrainEnd.

Definition make_dataset (w : World) (k : adapter) (data : list pyval) : sft_dataset :=
  {| kind := k; rows := data; prompts := adapter_prompts w k data |}.

(** Lines 71-78: the adapter for both shards, or the validation error. *)
Definition choose_adapter (trainer : pyval) : result adapter :=
  if eq_str trainer "unmasked" then inr SFTDataset
  else if eq_str trainer "masked" then inr MaskedSFTDataset
  else inl (ValueError "{} is unsupported train type!" [trainer]).

Definition train (w : World) (config : gmap string pyval) : M unit :=
  let config := <["fp16_full_eval" := VBool true]>
                  (<["eval_accumulation_steps" := VInt 2]> config) in
  do tokenizer_path <- lift (getitem config "tokenizer_path");
  do _ <- emit (ETokenizerFromPretrained tokenizer_path);
  let tokenizer := from_pretrained w tokenizer_path in
  let tokenizer :=
    {| encode := encode tokenizer; decode := decode tokenizer;
       eos_token := eos_token tokenizer; pad_token := Some (eos_token tokenizer);
       token_to_id := token_to_id tokenizer |} in
  do train_args <- lift (getitem config "train_args");
  do training_args <- lift (kwargs train_args);
  do _ <- emit (ETrainingArguments training_args);
  do model_path <- lift (getitem config "model_path");
  do _ <- emit (EModelFromPretrained model_path);
  let model := {| weights := model_path; tok := tokenizer |} in
  do _ <- emit EModelCuda;
  do data_path <- lift (getitem config "data_path");
  do _ <- emit (ELoadDataset data_path);
  let data := load_dataset w data_path in
  do (eval_data, data) <- lift (split_dataset data);
  do _ <- (if rank w =? 0 then emit (EWandbInit "tclx" config) else ret tt);
  do _ <- emit (EPrint "Len data: " (len data));
  do trainer <- lift (getitem config "trainer");
  do adapter <- lift (choose_adapter trainer);
  let train_dataset := make_dataset w adapter data in
  let eval_dataset := make_dataset w adapter eval_data in
  do _ <- emit (ETrainer train_dataset eval_dataset);
  do _ <- trainer_train w model eval_dataset;
  do train_args <- lift (getitem config "train_args");
  do output_dir <- lift (subscript train_args "output_dir");
  emit (ESavePretrained output_dir).

(** ** The script body *)

Record cli_args := {
  config_path : option string;
  ds_config_path : option string;
  deepspeed : option string;
  local_rank : option Z;
}.

Definition of_option_str (o : option string) : pyval :=
  match o with
  | Some s => VStr s
  | None => VNone
  end.

Definition main (w : World) (args : cli_args) : M unit :=
  let config := load_yaml w (of_option_str (config_path args)) in
  do train_args <- lift (subscript config "train_args");
  do train_args <- lift (store_subscript train_args "deepspeed"
                           (of_option_str (ds_config_path args)));
  match config with
  | VDict config => train w (<["train_args" := train_args]> config)
  | _ => raise (TypeError "subscript")
  end.

(** ** Vocabulary of the properties *)

(** [emits P m]: every event of the run [m] satisfies [P]. *)
Definition emits {A} (P : event -> Prop) (m : M A) : Prop := Forall P m.2.

(** Experiment-tracking calls. *)
Definition tracking (e : event) : Prop :=
  match e with
  | EWandbInit _ _ | EWandbLog _ _ => True
  | _ => False
  end.

Definition is_save (e : event) : Prop :=
  match e with
  | ESavePretrained _ => True
  | _ => False
  end.

(** The two possible shapes of a run with respect to persistence: nothing is
    saved, or the run ends with the return of the training loop immediately
    followed by the one save, to [config["train_args"]["output_dir"]]. *)
Definition save_shape {A} (config : gmap string pyval) (m : M A) : Prop :=
  emits (fun e => ~ is_save e) m \/
  exists t d,
    m.2 = t ++ [ETrainEnd; ESavePretrained d] /\
    Forall (fun e => ~ is_save e) t /\ ETrainBegin ∈ t /\
    (exists ta, config !! "train_args" = Some ta /\ subscript ta "output_dir" = inr d) /\
    exists a, m.1 = inr a.

(** The row that left-padding produces for the prompt [q] in a batch whose
    longest prompt has [longest] tokens. *)
Definition left_padded (pad : Z) (longest : nat) (q : list Z) : list Z :=
  replicate (longest - length q) pad ++ q.

Definition padded_batch (pad : Z) (b : list (list Z)) : list (list Z) :=
  left_padded pad (max_list (length <$> b)) <$> b.

(** The answers decoded from the sample drawn for batch [i] in evaluation
    round [round]. *)
Definition batch_answers (w : World) (round : nat) (m : model) (pad max_length : Z)
    (i : nat) (b : list (list Z)) : list string :=
  decode (tok m) <$> generate w round i (padded_batch pad b) max_length.

(** [k] consecutive chunks of [b] elements of [l] (the last ones shorter or
    empty when [l] runs out). *)
Definition chunks {A} (b : nat) (l : list A) (k : nat) : list (list A) :=
  (fun i => take b (drop (i * b) l)) <$> seq 0 k.

(** A call of the model as [call_model] makes it on behalf of the model [m]:
    with the given [max_length], on a batch of between 1 and [bound] prompts
    left-padded with the padding value of [m]'s tokenizer. *)
Definition generate_call (m : model) (max_length : Z) (bound : nat) (e : event) : Prop :=
  match e with
  | EGenerate rows ml =>
      ml = max_length /\
      exists pad b, padding_value (tok m) = inr pad /\
                    (0 < length b <= bound)%nat /\ rows = padded_batch pad b
  | _ => True
  end.

(** A call of the model as the sampling callback makes it for the model [m]
    and the prompts of the eval dataset: max_length 500, on the one batch of
    the first 16 prompts, encoded and left-padded with [m]'s padding value. *)
Definition sampling_call (m : model) (eval_prompts : list string) (e : event) : Prop :=
  match e with
  | EGenerate rows ml =>
      ml = 500 /\
      exists pad, padding_value (tok m) = inr pad /\
                  take 16 eval_prompts <> [] /\
                  rows = padded_batch pad (encode (tok m) <$> take 16 eval_prompts)
  | _ => True
  end.

(** ** A small concrete run

    A byte-level tokenizer, a dataset of 120 rows, a sampler that appends one
    token to every row, and a schedule with one evaluation. *)

Module demo.

Definition byte_encode (s : string) : list Z :=
  (fun a => Z.of_nat (Ascii.nat_of_ascii a)) <$> String.list_ascii_of_string s.

Definition byte_decode (l : list Z) : string :=
  String.string_of_list_ascii ((fun z => Ascii.ascii_of_nat (Z.to_nat z)) <$> l).

(** The vocabulary id of a one-byte token. *)
Definition byte_id (s : string) : Z := hd 0 (byte_encode s).

Definition pretrained : tokenizer :=
  {| encode := byte_encode; decode := byte_decode;
     eos_token := "#"; pad_token := None; token_to_id := byte_id |}.

Definition train_args : gmap string pyval :=
  <["output_dir" := VStr "out"]> (<["learning_rate" := VStr "1e-5"]> ∅).

Definition yaml : gmap string pyval :=
  <["tokenizer_path" := VStr "gpt2"]>
    (<["model_path" := VStr "gpt2"]>
       (<["data_path" := VStr "data"]>
          (<["trainer" := VStr "masked"]>
             (<["train_args" := VDict train_args]> ∅)))).

Definition dataset : list pyval :=
  VStr "ab" :: VStr "c" :: replicate 118 (VStr "x").

Definition prompts_of (r : pyval) : string :=
  match r with
  | VStr s => s
  | _ => ""
  end.

Definition world_of_rank (r : Z) : World :=
  {| rank := r;
     load_yaml := fun _ => VDict yaml;
     from_pretrained := fun _ => pretrained;
     load_dataset := fun _ => dataset;
     adapter_prompts := fun _ rs => prompts_of <$> rs;
     generate := fun _ _ batch _ => (fun row => row ++ [33]) <$> batch;
     schedule := [StepTrain; StepEvaluate; StepTrain] |}.

Definition world : World := world_of_rank 0.

Definition args : cli_args :=
  {| config_path := Some "config.yaml"; ds_config_path := Some "ds.json";
     deepspeed := None; local_rank := Some 0 |}.

(** The configuration [train] is called with by [main]. *)
Definition config : gmap string pyval :=
  <["train_args" := VDict (<["deepspeed" := VStr "ds.json"]> train_args)]> yaml.

Definition sampler : model :=
  {| weights := VStr "gpt2";
     tok := {| encode := byte_encode; decode := byte_decode;
               eos_token := "#"; pad_token := Some "#"; token_to_id := byte_id |} |}.

(** A model whose tokenizer puts a begin-of-sequence token, id 1, in front of
    every text it encodes; its pad token "#" has the vocabulary id 35. *)
Definition bos_sampler : model :=
  {| weights := VStr "llama";
     tok := {| encode := fun s => 1 :: byte_encode s; decode := byte_decode;
               eos_token := "#"; pad_token := Some "#"; token_to_id := byte_id |} |}.

Definition examples : list (list Z * list Z * list Z) :=
  [([1; 2], [1; 1], [3; 4]); ([5; 6], [1; 0], [7; 8])].

End demo.

(** * Properties *)

(** ** Binary64 rounding

    [SpecFloat] rounds by shifting the mantissa right one bit at a time while
    recording a round bit and a sticky bit.  The lemmas below turn that into
    arithmetic on [Z]: the kept mantissa is a quotient by a power of two, and it
    is incremented only when the round bit is set. *)

Lemma Zdigits2_log2 z : 0 < z -> Zdigits2 z = Z.log2 z + 1.
Proof.
  destruct z as [|p|p]; try lia. intros _. simpl.
  induction p as [p IH|p IH|]; simpl digits2_pos.
  - rewrite Pos2Z.inj_succ, IH. destruct p; simpl; lia.
  - rewrite Pos2Z.inj_succ, IH. destruct p; simpl; lia.
  - reflexivity.
Qed.

Lemma Zdigits2_bounds z : 0 < z -> 2 ^ (Zdigits2 z - 1) <= z < 2 ^ Zdigits2 z.
Proof.
  intros H. rewrite Zdigits2_log2 by assumption.
  replace (Z.log2 z + 1 - 1) with (Z.log2 z) by lia.
  replace (Z.log2 z + 1) with (Z.succ (Z.log2 z)) by lia.
  apply Z.log2_spec; assumption.
Qed.

Lemma Zdigits2_unique z d : 0 < d -> 2 ^ (d - 1) <= z < 2 ^ d -> Zdigits2 z = d.
Proof.
  intros Hd H. assert (0 < z) by (pose proof (Z.pow_pos_nonneg 2 (d-1)); lia).
  rewrite Zdigits2_log2 by assumption.
  rewrite (Z.log2_unique z (d - 1)); try lia.
  replace (Z.succ (d - 1)) with d by lia. assumption.
Qed.

Lemma iter_pos_nat {A} (f : A -> A) p x :
  SpecFloat.iter_pos f p x = Nat.iter (Pos.to_nat p) f x.
Proof.
  revert x. induction p as [p IH|p IH|]; intros x; simpl SpecFloat.iter_pos.
  - rewrite !IH, Pos2Nat.inj_xI.
    replace (S (2 * Pos.to_nat p))%nat with (Pos.to_nat p + (Pos.to_nat p + 1))%nat by lia.
    rewrite !Nat.iter_add. reflexivity.
  - rewrite !IH, Pos2Nat.inj_xO.
    replace (2 * Pos.to_nat p)%nat with (Pos.to_nat p + Pos.to_nat p)%nat by lia.
    rewrite Nat.iter_add. reflexivity.
  - reflexivity.
Qed.

Lemma shr_1_nonneg m r s :
  0 <= m -> shr_1 (Build_shr_record m r s) = Build_shr_record (m / 2) (Z.odd m) (r || s).
Proof.
  intros Hm. destruct m as [|[p|p|]|]; try lia; unfold shr_1.
  - reflexivity.
  - assert (E : Z.pos p~1 / 2 = Z.pos p)
      by (symmetry; apply (Z.div_unique _ _ _ 1); lia).
    rewrite E. reflexivity.
  - assert (E : Z.pos p~0 / 2 = Z.pos p)
      by (symmetry; apply (Z.div_unique _ _ _ 0); lia).
    rewrite E. reflexivity.
  - reflexivity.
Qed.

Lemma iter_shr_1 n m :
  0 <= m ->
  exists s, Nat.iter (S n) shr_1 (Build_shr_record m false false)
            = Build_shr_record (m / 2 ^ Z.of_nat (S n)) (Z.testbit m (Z.of_nat n)) s.
Proof.
  intros Hm. induction n as [|n [s IH]].
  - exists false. change (Nat.iter 1 shr_1 ?x) with (shr_1 x). rewrite shr_1_nonneg by assumption.
    rewrite Z.bit0_odd. reflexivity.
  - exists (Z.testbit m (Z.of_nat n) || s).
    change (Nat.iter (S (S n)) shr_1 ?x) with (shr_1 (Nat.iter (S n) shr_1 x)).
    rewrite IH. rewrite shr_1_nonneg by (apply Z.div_pos; lia).
    rewrite Z.div_div by lia.
    replace (2 ^ Z.of_nat (S n) * 2) with (2 ^ Z.of_nat (S (S n)))
      by (rewrite (Nat2Z.inj_succ (S n)), Z.pow_succ_r by lia; lia).
    f_equal. rewrite Z.testbit_odd, Z.shiftr_div_pow2 by lia. reflexivity.
Qed.

Lemma shr_pos m e n :
  0 <= m -> 0 < n ->
  exists s, shr (Build_shr_record m false false) e n
            = (Build_shr_record (m / 2 ^ n) (Z.testbit m (n - 1)) s, e + n).
Proof.
  intros Hm Hn. destruct n as [|p|p]; try lia. unfold shr.
  rewrite iter_pos_nat.
  destruct (Pos2Nat.is_succ p) as [k Hk]. rewrite Hk.
  destruct (iter_shr_1 k m Hm) as [s Hs]. exists s. rewrite Hs.
  rewrite <- Hk, positive_nat_Z.
  replace (Z.of_nat k) with (Z.pos p - 1) by lia. reflexivity.
Qed.

Lemma shr_nonpos mrs e n : n <= 0 -> shr mrs e n = (mrs, e).
Proof. destruct n; try reflexivity. lia. Qed.

Lemma fexp_normal e : 3 - emax - prec <= e - prec -> fexp prec emax e = e - prec.
Proof. intros H. unfold fexp, emin. lia. Qed.

Lemma shr_fexp_exact m e :
  0 < m -> Zdigits2 m <= prec -> 3 - emax - prec <= Zdigits2 m + e - prec ->
  shr_fexp prec emax m e loc_Exact = (Build_shr_record m false false, e).
Proof.
  intros Hm Hd He. unfold shr_fexp. rewrite fexp_normal by assumption.
  apply shr_nonpos. lia.
Qed.

Lemma finish_pos m e :
  0 < m ->
  match m with
  | 0 => S754_zero false
  | Z.pos p => if e <=? emax - prec then S754_finite false p e else S754_infinity false
  | Z.neg _ => S754_nan
  end = finite_or_inf m e.
Proof. destruct m; try lia. reflexivity. Qed.

Lemma binary_round_aux_exact mx ex :
  0 < mx -> Zdigits2 mx <= prec -> 3 - emax - prec <= Zdigits2 mx + ex - prec ->
  binary_round_aux prec emax false mx ex loc_Exact = finite_or_inf mx ex.
Proof.
  intros Hm Hd He. unfold binary_round_aux.
  rewrite shr_fexp_exact by assumption. cbn [shr_m loc_of_shr_record round_nearest_even].
  rewrite shr_fexp_exact by assumption. cbn [shr_m].
  apply finish_pos; assumption.
Qed.

Lemma binary_round_aux_round mx ex :
  0 < mx -> prec < Zdigits2 mx -> 3 - emax - prec <= Zdigits2 mx + ex - prec ->
  let sh := Zdigits2 mx - prec in
  exists q',
    (q' = mx / 2 ^ sh \/ (q' = mx / 2 ^ sh + 1 /\ Z.testbit mx (sh - 1) = true)) /\
    binary_round_aux prec emax false mx ex loc_Exact =
      if q' <? 2 ^ prec then finite_or_inf q' (ex + sh)
      else finite_or_inf (2 ^ (prec - 1)) (ex + sh + 1).
Proof.
  intros Hm Hd He sh.
  assert (Hsh : 0 < sh) by (unfold sh; lia).
  pose proof (Zdigits2_bounds mx Hm) as [Hlo Hhi].
  set (q := mx / 2 ^ sh).
  assert (Hp : 0 < 2 ^ sh) by (apply Z.pow_pos_nonneg; lia).
  assert (Hq : 2 ^ (prec - 1) <= q < 2 ^ prec).
  { unfold q. split.
    - apply Z.div_le_lower_bound; [assumption|].
      rewrite <- Z.pow_add_r by (unfold prec in *; lia).
      replace (sh + (prec - 1)) with (Zdigits2 mx - 1) by (unfold sh; lia). assumption.
    - apply Z.div_lt_upper_bound; [assumption|].
      rewrite <- Z.pow_add_r by (unfold prec in *; lia).
      replace (sh + prec) with (Zdigits2 mx) by (unfold sh; lia). assumption. }
  unfold binary_round_aux, shr_fexp at 1. rewrite fexp_normal by assumption.
  replace (Zdigits2 mx + ex - prec - ex) with sh by (unfold sh; lia).
  cbn [shr_record_of_loc].
  destruct (shr_pos mx ex sh ltac:(lia) Hsh) as [s Hs]. rewrite Hs. fold q.
  cbn [shr_m].
  set (q' := round_nearest_even q
               (loc_of_shr_record (Build_shr_record q (Z.testbit mx (sh - 1)) s))).
  assert (Hq' : q' = q \/ (q' = q + 1 /\ Z.testbit mx (sh - 1) = true)).
  { unfold q'. destruct (Z.testbit mx (sh - 1)), s; cbn [loc_of_shr_record round_nearest_even];
      try (left; reflexivity); try (right; split; reflexivity).
    destruct (Z.even q); [left|right]; auto. }
  exists q'. split; [exact Hq'|].
  assert (Hq'r : 2 ^ (prec - 1) <= q' <= 2 ^ prec) by (destruct Hq' as [->|[-> _]]; lia).
  assert (H52 : 0 < 2 ^ (prec - 1)) by (apply Z.pow_pos_nonneg; unfold prec; lia).
  destruct (Z.ltb_spec q' (2 ^ prec)) as [Hlt|Hge].
  - assert (Hd' : Zdigits2 q' = prec)
      by (apply Zdigits2_unique; [unfold prec; lia | lia]).
    rewrite shr_fexp_exact; [| lia | lia | rewrite Hd'; unfold sh; lia ].
    cbn [shr_m]. apply finish_pos. lia.
  - assert (Eq' : q' = 2 ^ prec) by lia. rewrite Eq'.
    unfold shr_fexp.
    rewrite (Zdigits2_unique (2 ^ prec) (prec + 1)).
    2: unfold prec; lia.
    2:{ replace (prec + 1 - 1) with prec by lia. split; [lia|].
        apply Z.pow_lt_mono_r; unfold prec; lia. }
    rewrite fexp_normal by (unfold sh; lia).
    replace (prec + 1 + (ex + sh) - prec - (ex + sh)) with 1 by lia.
    cbn [shr_record_of_loc].
    destruct (shr_pos (2 ^ prec) (ex + sh) 1 ltac:(lia) ltac:(lia)) as [s' Hs']. rewrite Hs'.
    cbn [shr_m].
    replace (2 ^ prec / 2 ^ 1) with (2 ^ (prec - 1)) by (unfold prec; reflexivity).
    apply finish_pos. assumption.
Qed.

Lemma pow2_half sh : 0 < sh -> 2 ^ sh = 2 * 2 ^ (sh - 1).
Proof.
  intros H. rewrite <- Z.pow_succ_r by lia. f_equal. lia.
Qed.

Lemma testbit_mod_half m sh :
  0 <= m -> 0 < sh -> Z.testbit m (sh - 1) = true -> 2 ^ (sh - 1) <= m mod 2 ^ sh.
Proof.
  intros Hm Hsh Hb. apply Z.testbit_true in Hb; [|lia].
  rewrite (pow2_half sh Hsh), (Z.mul_comm 2).
  assert (Hp : 0 < 2 ^ (sh - 1)) by (apply Z.pow_pos_nonneg; lia).
  rewrite Z.rem_mul_r by lia. rewrite Hb.
  pose proof (Z.mod_pos_bound m (2 ^ (sh - 1)) Hp). lia.
Qed.

Lemma binary_round_aux_value mx ex :
  0 < mx -> 3 - emax - prec <= Zdigits2 mx + ex - prec ->
  let sh := Z.max 0 (Zdigits2 mx - prec) in
  exists mF c,
    binary_round_aux prec emax false mx ex loc_Exact = finite_or_inf mF (ex + c) /\
    0 < mF /\ sh <= c <= sh + 1 /\
    mx / 2 ^ sh * 2 ^ sh <= mF * 2 ^ c /\
    2 * (mF * 2 ^ c) <= 2 * mx + 2 ^ sh /\
    (Zdigits2 mx <= prec -> mF = mx /\ c = 0) /\
    (prec <= Zdigits2 mx -> 2 ^ (prec - 1) <= mF < 2 ^ prec).
Proof.
  intros Hm He sh.
  destruct (Z_le_gt_dec (Zdigits2 mx) prec) as [Hd|Hd].
  - exists mx, 0. replace sh with 0 by (unfold sh; lia).
    rewrite Z.add_0_r, binary_round_aux_exact by assumption.
    rewrite Z.pow_0_r, Z.div_1_r.
    repeat split; try lia.
    + assert (Zdigits2 mx = prec) as E by lia.
      pose proof (Zdigits2_bounds mx Hm) as B. rewrite E in B. lia.
    + assert (Zdigits2 mx = prec) as E by lia.
      pose proof (Zdigits2_bounds mx Hm) as B. rewrite E in B. lia.
  - replace sh with (Zdigits2 mx - prec) by (unfold sh; lia). clear sh.
    set (sh := Zdigits2 mx - prec).
    destruct (binary_round_aux_round mx ex Hm ltac:(lia) He) as [q' [Hq' Hr]].
    fold sh in Hq', Hr.
    assert (Hsh : 0 < sh) by (unfold sh; lia).
    assert (Hp : 0 < 2 ^ sh) by (apply Z.pow_pos_nonneg; lia).
    pose proof (Zdigits2_bounds mx Hm) as [Hlo Hhi].
    assert (Hq : 2 ^ (prec - 1) <= mx / 2 ^ sh < 2 ^ prec).
    { split.
      - apply Z.div_le_lower_bound; [assumption|].
        rewrite <- Z.pow_add_r by (unfold prec in *; lia).
        replace (sh + (prec - 1)) with (Zdigits2 mx - 1) by (unfold sh; lia). assumption.
      - apply Z.div_lt_upper_bound; [assumption|].
        rewrite <- Z.pow_add_r by (unfold prec in *; lia).
        replace (sh + prec) with (Zdigits2 mx) by (unfold sh; lia). assumption. }
    assert (H52 : 0 < 2 ^ (prec - 1)) by (apply Z.pow_pos_nonneg; unfold prec; lia).
    assert (Hdm := Z.div_mod mx (2 ^ sh) ltac:(lia)).
    assert (Hmod := Z.mod_pos_bound mx (2 ^ sh) Hp).
    assert (Hup : 2 * (q' * 2 ^ sh) <= 2 * mx + 2 ^ sh).
    { destruct Hq' as [->|[-> Hb]]; [nia|].
      apply testbit_mod_half in Hb; try lia.
      pose proof (pow2_half sh Hsh).
      nia. }
    assert (Hlow : mx / 2 ^ sh * 2 ^ sh <= q' * 2 ^ sh)
      by (destruct Hq' as [->|[-> _]]; nia).
    destruct (Z.ltb_spec q' (2 ^ prec)) as [Hlt|Hge].
    + exists q', sh. rewrite Hr. repeat split; try lia.
    + assert (Eq' : q' = 2 ^ prec) by (destruct Hq' as [->|[-> _]]; lia).
      exists (2 ^ (prec - 1)), (sh + 1). rewrite Hr, Z.add_assoc.
      assert (E2 : 2 ^ (prec - 1) * 2 ^ (sh + 1) = q' * 2 ^ sh).
      { rewrite Eq', Z.pow_add_r by lia.
        replace (2 ^ prec) with (2 ^ (prec - 1) * 2 ^ 1) by reflexivity. ring. }
      rewrite E2.
      repeat split; lia.
Qed.

Lemma pos_iter_xO m d : Z.pos (Pos.iter xO m d) = Z.pos m * 2 ^ Z.pos d.
Proof.
  induction d as [|d IH] using Pos.peano_ind.
  - simpl. lia.
  - rewrite Pos.iter_succ, Pos2Z.inj_xO, IH, Pos2Z.inj_succ, Z.pow_succ_r by lia. ring.
Qed.

Lemma Zdigits2_mul_pow2 m t :
  0 < m -> 0 <= t -> Zdigits2 (m * 2 ^ t) = Zdigits2 m + t.
Proof.
  intros Hm Ht. pose proof (Zdigits2_bounds m Hm) as [Hlo Hhi].
  assert (0 < Zdigits2 m) by (rewrite Zdigits2_log2 by lia; pose proof (Z.log2_nonneg m); lia).
  assert (0 < 2 ^ t) by (apply Z.pow_pos_nonneg; lia).
  apply Zdigits2_unique; [lia|].
  replace (Zdigits2 m + t - 1) with (Zdigits2 m - 1 + t) by lia.
  rewrite !Z.pow_add_r by lia. nia.
Qed.

(** [binary_round] on an integer with at most [prec] digits and exponent 0 is exact. *)
Lemma binary_round_small (p : positive) :
  Zdigits2 (Z.pos p) <= prec ->
  binary_round prec emax false p 0 =
    S754_finite false (Z.to_pos (Z.pos p * 2 ^ (prec - Zdigits2 (Z.pos p))))
                (Zdigits2 (Z.pos p) - prec).
Proof.
  intros Hd. set (d := Zdigits2 (Z.pos p)) in *.
  assert (Hd1 : 0 < d).
  { unfold d. rewrite Zdigits2_log2 by lia. pose proof (Z.log2_nonneg (Z.pos p)). lia. }
  unfold binary_round. change (Z.pos (digits2_pos p)) with d.
  rewrite Z.add_0_r, fexp_normal by (unfold prec, emax in *; lia).
  assert (Hsa : exists mz, shl_align p 0 (d - prec) = (mz, d - prec) /\
                           Z.pos mz = Z.pos p * 2 ^ (prec - d)).
  { unfold shl_align. rewrite Z.sub_0_r.
    destruct (d - prec) as [|k|k] eqn:E; try lia.
    - exists p. split; [reflexivity|]. replace (prec - d) with 0 by lia. lia.
    - exists (Pos.iter xO p k). split; [reflexivity|].
      rewrite pos_iter_xO. f_equal. f_equal. lia. }
  destruct Hsa as [mz [-> Hmz]].
  assert (Hdz : Zdigits2 (Z.pos mz) = prec).
  { rewrite Hmz, Zdigits2_mul_pow2 by lia. fold d. lia. }
  rewrite binary_round_aux_exact; try lia.
  - unfold finite_or_inf.
    destruct (Z.leb_spec (d - prec) (emax - prec)); [|unfold prec, emax in *; lia].
    rewrite <- Hmz. reflexivity.
  - rewrite Hdz. unfold prec, emax in *. lia.
Qed.

Lemma binary_round_large (p : positive) :
  prec < Zdigits2 (Z.pos p) ->
  binary_round prec emax false p 0 = binary_round_aux prec emax false (Z.pos p) 0 loc_Exact.
Proof.
  intros Hd. set (d := Zdigits2 (Z.pos p)) in *.
  unfold binary_round. change (Z.pos (digits2_pos p)) with d.
  rewrite Z.add_0_r, fexp_normal by (unfold prec, emax in *; lia).
  unfold shl_align. rewrite Z.sub_0_r.
  destruct (d - prec) as [|k|k] eqn:E; try lia. reflexivity.
Qed.

Lemma Zdigits2_pos z : 0 < z -> 0 < Zdigits2 z.
Proof. intros H. rewrite Zdigits2_log2 by lia. pose proof (Z.log2_nonneg z). lia. Qed.

Lemma Zdigits2_lt_pow2 z n : 0 < z -> 0 <= n -> z < 2 ^ n -> Zdigits2 z <= n.
Proof.
  intros Hz Hn Hlt. pose proof (Zdigits2_bounds z Hz) as [Hlo _].
  destruct (Z_le_gt_dec (Zdigits2 z) n) as [|Hgt]; [assumption|exfalso].
  assert (2 ^ n <= 2 ^ (Zdigits2 z - 1)) by (apply Z.pow_le_mono_r; lia). lia.
Qed.

Lemma Zdigits2_ge_pow2 z n : 0 <= n -> 2 ^ n <= z -> n < Zdigits2 z.
Proof.
  intros Hn Hle. assert (Hz : 0 < z) by (pose proof (Z.pow_pos_nonneg 2 n); lia).
  pose proof (Zdigits2_bounds z Hz) as [_ Hhi]. pose proof (Zdigits2_pos z Hz).
  destruct (Z_lt_le_dec n (Zdigits2 z)) as [|Hge]; [assumption|exfalso].
  assert (2 ^ Zdigits2 z <= 2 ^ n) by (apply Z.pow_le_mono_r; lia). lia.
Qed.

(** The product of a normalised mantissa with the mantissa of 0.02, rounded. *)
Lemma SFmul_0_02 (mN : positive) (eN : Z) :
  2 ^ (prec - 1) <= Z.pos mN < 2 ^ prec -> - 52 <= eN <= emax - prec ->
  let P := Z.pos mN * Z.pos m_0_02 in
  exists mF c sh,
    SFmul prec emax (S754_finite false mN eN) float_0_02
      = S754_finite false (Z.to_pos mF) (eN - 58 + c) /\
    0 < mF /\ 52 <= sh <= 53 /\ sh <= c <= sh + 1 /\
    P / 2 ^ sh * 2 ^ sh <= mF * 2 ^ c /\
    2 * (mF * 2 ^ c) <= 2 * P + 2 ^ sh.
Proof.
  intros Hm He P.
  assert (HP : 2 ^ 104 <= P < 2 ^ 106).
  { unfold P, m_0_02, prec in *. simpl Z.sub in Hm. nia. }
  assert (HP0 : 0 < P) by lia.
  assert (Hd : 105 <= Zdigits2 P <= 106).
  { pose proof (Zdigits2_ge_pow2 P 104 ltac:(lia) ltac:(lia)).
    pose proof (Zdigits2_lt_pow2 P 106 ltac:(lia) ltac:(lia) ltac:(lia)). lia. }
  unfold SFmul, float_0_02. cbn [xorb].
  rewrite Pos2Z.inj_mul. fold P.
  destruct (binary_round_aux_value P (eN + -58)) as (mF & c & Hr & HmF & Hc & Hlo & Hhi & _ & _).
  { assumption. } { unfold prec, emax in *. lia. }
  exists mF, c, (Z.max 0 (Zdigits2 P - prec)).
  rewrite Hr. unfold finite_or_inf.
  destruct (Z.leb_spec (eN + -58 + c) (emax - prec)) as [_|Hov];
    [|unfold prec, emax in *; lia].
  replace (eN + -58 + c) with (eN - 58 + c) by lia.
  repeat split; try assumption; unfold prec in *; lia.
Qed.

Lemma shiftl_neg_div a n : n <= 0 -> Z.shiftl a n = a / 2 ^ (- n).
Proof.
  intros Hn. rewrite <- Z.shiftr_opp_r. apply Z.shiftr_div_pow2. lia.
Qed.

(** Sizes that fit a double exactly: the eval size is exactly [N / 50]. *)
Lemma eval_size_exact N : 0 <= N < 2 ^ 53 -> eval_size N = inr (N / 50).
Proof.
  intros [H0 Hlt]. unfold eval_size, bindR, float_mul, float_of_int.
  destruct N as [|p|p]; try lia; [reflexivity|].
  unfold binary_normalize.
  assert (Hd : Zdigits2 (Z.pos p) <= prec) by (apply Zdigits2_lt_pow2; unfold prec; lia).
  rewrite binary_round_small by assumption.
  set (N := Z.pos p) in *. set (d := Zdigits2 N) in *.
  assert (Hd0 : 0 < d) by (apply Zdigits2_pos; lia).
  set (t := prec - d). assert (Ht : 0 <= t <= 52) by (unfold t, prec in *; lia).
  assert (HT : 0 < 2 ^ t) by (apply Z.pow_pos_nonneg; lia).
  assert (HmN : 2 ^ (prec - 1) <= N * 2 ^ t < 2 ^ prec).
  { pose proof (Zdigits2_bounds (N * 2 ^ t) ltac:(lia)) as B.
    rewrite Zdigits2_mul_pow2 in B by lia. fold d in B.
    replace (d + t) with prec in B by (unfold t; lia). exact B. }
  destruct (SFmul_0_02 (Z.to_pos (N * 2 ^ t)) (d - prec))
    as (mF & c & sh & Hr & HmF & Hsh & Hc & Hlo & Hhi).
  { rewrite Z2Pos.id by lia. exact HmN. } { unfold prec, emax in *. lia. }
  rewrite Z2Pos.id in Hlo, Hhi by lia.
  rewrite Hr. unfold int_of_float, cond_Zopp. f_equal.
  rewrite Z2Pos.id by lia.
  set (E := t + 58 - c).
  assert (HE : 0 < E) by (unfold E; lia).
  rewrite shiftl_neg_div by (unfold t, prec in *; lia).
  replace (- (d - prec - 58 + c)) with E by (unfold E, t; lia).
  set (k := N / 50).
  assert (Hk : 50 * k <= N < 50 * k + 50).
  { unfold k. pose proof (Z.div_mod N 50 ltac:(lia)).
    pose proof (Z.mod_pos_bound N 50 ltac:(lia)). lia. }
  assert (HX : 0 < 2 ^ c) by (apply Z.pow_pos_nonneg; lia).
  assert (HY : 0 < 2 ^ E) by (apply Z.pow_pos_nonneg; lia).
  assert (HS : 0 < 2 ^ sh) by (apply Z.pow_pos_nonneg; lia).
  assert (HXY : 2 ^ c * 2 ^ E = 2 ^ t * 2 ^ 58).
  { rewrite <- !Z.pow_add_r by lia. f_equal. unfold E. lia. }
  set (P := N * 2 ^ t * Z.pos m_0_02) in *.
  (* lower bound *)
  assert (Hlow : k * 2 ^ E <= mF).
  { set (W := 2 ^ (t + 58 - sh)).
    assert (HW : 2 ^ sh * W = 2 ^ t * 2 ^ 58).
    { unfold W. rewrite <- !Z.pow_add_r by lia. f_equal. lia. }
    assert (HkP : k * (2 ^ t * 2 ^ 58) <= P).
    { unfold P, m_0_02. nia. }
    assert (k * W <= P / 2 ^ sh).
    { apply Z.div_le_lower_bound; [assumption|]. nia. }
    apply (Z.mul_le_mono_pos_r _ _ (2 ^ c)); [assumption|]. nia. }
  (* upper bound *)
  assert (Hupp : mF < (k + 1) * 2 ^ E).
  { assert (HS53 : 2 ^ sh <= 2 ^ 53) by (apply Z.pow_le_mono_r; lia).
    assert (Hlin : 2 * N * Z.pos m_0_02 + 2 ^ 53 < 2 * (k + 1) * 2 ^ 58)
      by (unfold m_0_02; lia).
    apply (Z.mul_lt_mono_pos_r (2 ^ c)); [assumption|].
    unfold P in Hhi. nia. }
  symmetry. apply (Z.div_unique _ _ _ (mF - k * 2 ^ E)); [left; lia | ring].
Qed.

Lemma shiftl_le_scaled m e s K :
  0 <= m -> 0 <= s -> 0 <= e + s -> m * 2 ^ (e + s) <= K * 2 ^ s -> Z.shiftl m e <= K.
Proof.
  intros Hm Hs Hes H.
  assert (HS : 0 < 2 ^ s) by (apply Z.pow_pos_nonneg; lia).
  destruct (Z_le_gt_dec 0 e) as [He|He].
  - rewrite Z.shiftl_mul_pow2 by assumption.
    rewrite Z.pow_add_r in H by lia.
    apply (Z.mul_le_mono_pos_r _ _ (2 ^ s)); [assumption|]. lia.
  - rewrite shiftl_neg_div by lia.
    assert (HE : 0 < 2 ^ (- e)) by (apply Z.pow_pos_nonneg; lia).
    assert (HX : 0 < 2 ^ (e + s)) by (apply Z.pow_pos_nonneg; lia).
    assert (E : 2 ^ s = 2 ^ (e + s) * 2 ^ (- e))
      by (rewrite <- Z.pow_add_r by lia; f_equal; lia).
    rewrite E in H.
    apply Z.div_le_upper_bound; [assumption|].
    apply (Z.mul_le_mono_pos_r _ _ (2 ^ (e + s))); [assumption|]. lia.
Qed.

(** Sizes beyond 2^53: the conversion rounds, the product rounds again, and the
    truncated result still lies between 0 and N. *)
Lemma eval_size_large N :
  2 ^ 53 <= N ->
  match eval_size N with
  | inr k => 0 <= k <= N
  | inl e => e = OverflowError /\ 2 ^ 1023 <= N
  end.
Proof.
  intros HN. unfold eval_size, bindR, float_mul, float_of_int.
  destruct N as [|p|p]; try lia. unfold binary_normalize.
  set (N := Z.pos p) in *.
  assert (Hd : prec < Zdigits2 N) by (apply Zdigits2_ge_pow2; unfold prec; lia).
  rewrite binary_round_large by assumption. fold N.
  destruct (binary_round_aux_value N 0) as (mN & c1 & Hr & HmN & Hc1 & _ & Hhi1 & _ & Hnorm).
  { lia. } { unfold prec, emax in *. lia. }
  specialize (Hnorm ltac:(lia)).
  rewrite Z.max_r in Hc1, Hhi1 by lia.
  set (sh1 := Zdigits2 N - prec) in *.
  assert (Hsh1 : 2 ^ sh1 <= N).
  { pose proof (Zdigits2_bounds N ltac:(lia)) as [Hlo _].
    assert (2 ^ sh1 <= 2 ^ (Zdigits2 N - 1))
      by (apply Z.pow_le_mono_r; unfold sh1, prec in *; lia). lia. }
  rewrite Hr. unfold finite_or_inf. rewrite Z.add_0_l.
  destruct (Z.leb_spec c1 (emax - prec)) as [Hfit|Hov].
  - destruct (SFmul_0_02 (Z.to_pos mN) c1)
      as (mF & c2 & sh2 & Hr2 & HmF & Hsh2 & Hc2 & _ & Hhi2).
    { rewrite Z2Pos.id by lia. exact Hnorm. } { unfold sh1, prec in *; lia. }
    rewrite Z2Pos.id in Hhi2 by lia.
    rewrite Hr2. unfold int_of_float, cond_Zopp. rewrite Z2Pos.id by lia.
    split; [apply Z.shiftl_nonneg; lia|].
    assert (Hc1' : 0 < c1) by (unfold sh1, prec in *; lia).
    apply (shiftl_le_scaled _ _ 58); [lia | lia | lia |].
    replace (c1 - 58 + c2 + 58) with (c2 + c1) by lia.
    rewrite Z.pow_add_r by (unfold sh1, prec in *; lia).
    assert (HS : 2 ^ sh2 <= 2 ^ 53) by (apply Z.pow_le_mono_r; lia).
    assert (HC1 : 0 < 2 ^ c1) by (apply Z.pow_pos_nonneg; unfold sh1, prec in *; lia).
    assert (HC2 : 0 < 2 ^ c2) by (apply Z.pow_pos_nonneg; lia).
    assert (H52 : 2 ^ 52 <= mN) by (unfold prec in *; simpl in Hnorm; lia).
    assert (HA : 2 * (mF * 2 ^ c2) <= 3 * (mN * Z.pos m_0_02))
      by (unfold m_0_02 in *; nia).
    assert (HB : 2 * (mN * 2 ^ c1) <= 3 * N) by lia.
    assert (HAB : 4 * (mF * 2 ^ c2 * 2 ^ c1) <= 9 * Z.pos m_0_02 * N).
    { assert (2 * (mF * 2 ^ c2) * 2 ^ c1 <= 3 * (mN * Z.pos m_0_02) * 2 ^ c1)
        by (apply Z.mul_le_mono_nonneg_r; lia).
      unfold m_0_02 in *. nia. }
    unfold m_0_02 in *. lia.
  - split; [reflexivity|].
    assert (Hdbig : 1024 <= Zdigits2 N) by (unfold sh1, prec, emax in *; lia).
    pose proof (Zdigits2_bounds N ltac:(lia)) as [Hlo _].
    assert (2 ^ 1023 <= 2 ^ (Zdigits2 N - 1)) by (apply Z.pow_le_mono_r; lia). lia.
Qed.

Lemma eval_size_total N :
  0 <= N ->
  match eval_size N with
  | inr k => 0 <= k <= N
  | inl e => e = OverflowError /\ 2 ^ 1023 <= N
  end.
Proof.
  intros H0. destruct (Z_lt_le_dec N (2 ^ 53)) as [Hs|Hl].
  - rewrite eval_size_exact by lia.
    pose proof (Z.div_mod N 50 ltac:(lia)).
    pose proof (Z.mod_pos_bound N 50 ltac:(lia)). lia.
  - apply eval_size_large; assumption.
Qed.

(** The literal 0.02 is a normalised double, and no double is nearer to 1/50:
    its distance to 1/50 is at most half a unit in the last place. *)
Lemma float_0_02_nearest :
  2 ^ (prec - 1) <= Z.pos m_0_02 < 2 ^ prec /\
  2 * Z.abs (50 * Z.pos m_0_02 - 2 ^ 58) <= 50.
Proof. unfold m_0_02, prec. simpl. lia. Qed.

Lemma eval_size_below_first_failure N :
  0 <= N < 2 ^ 53 + 7 -> eval_size N = inr (N / 50).
Proof.
  intros [H0 Hlt]. destruct (Z_lt_le_dec N (2 ^ 53)) as [Hs|Hl].
  - apply eval_size_exact. lia.
  - assert (HN : N = 2 ^ 53 \/ N = 2 ^ 53 + 1 \/ N = 2 ^ 53 + 2 \/ N = 2 ^ 53 + 3 \/
                 N = 2 ^ 53 + 4 \/ N = 2 ^ 53 + 5 \/ N = 2 ^ 53 + 6) by lia.
    destruct HN as [->|[->|[->|[->|[->|[->| ->]]]]]]; vm_compute; reflexivity.
Qed.

(** ** Ranges and selection *)

Lemma py_range_length n : length (py_range n) = Z.to_nat n.
Proof. unfold py_range. rewrite length_fmap, length_seq. reflexivity. Qed.

Lemma elem_of_py_range i n : i ∈ py_range n <-> 0 <= i < n.
Proof.
  unfold py_range. rewrite list_elem_of_fmap. split.
  - intros (k & -> & Hk). apply elem_of_seq in Hk. lia.
  - intros H. exists (Z.to_nat i). split; [lia|]. apply elem_of_seq. lia.
Qed.

Lemma select_inr {A} (data : list A) indices :
  (forall i, i ∈ indices -> 0 <= i < len data) ->
  select data indices = inr (omap (fun i => data !! Z.to_nat i) indices).
Proof.
  intros H. unfold select.
  assert (E : forallb (fun i => (0 <=? i) && (i <? len data)) indices = true).
  { apply forallb_forall. intros i Hi. apply list_elem_of_In, H in Hi.
    apply andb_true_intro. split; [apply Z.leb_le|apply Z.ltb_lt]; lia. }
  rewrite E. reflexivity.
Qed.

Lemma select_in_range {A} (data : list A) indices r :
  select data indices = inr r ->
  (forall i, i ∈ indices -> 0 <= i < len data) /\ length r = length indices.
Proof.
  unfold select. intros H.
  destruct (forallb _ indices) eqn:E; [|discriminate].
  injection H as <-.
  assert (Hall : forall i, i ∈ indices -> 0 <= i < len data).
  { intros i Hi. apply list_elem_of_In in Hi.
    apply (proj1 (forallb_forall _ _) E) in Hi.
    apply andb_prop in Hi as [H1 H2]. apply Z.leb_le in H1. apply Z.ltb_lt in H2. lia. }
  split; [exact Hall|].
  clear E. induction indices as [|i l IH]; [reflexivity|].
  simpl. destruct (data !! Z.to_nat i) eqn:Ei.
  - simpl. f_equal. apply IH. intros j Hj. apply Hall. right. exact Hj.
  - exfalso. apply lookup_ge_None in Ei.
    specialize (Hall i ltac:(left)). unfold len in Hall. lia.
Qed.

Lemma omap_lookup_seq {A} (data : list A) a n :
  (a + n <= length data)%nat ->
  omap (fun i => data !! Z.to_nat i) (Z.of_nat <$> seq a n) = take n (drop a data).
Proof.
  revert a. induction n as [|n IH]; intros a Hle; [reflexivity|].
  simpl seq. rewrite fmap_cons. simpl omap. rewrite Nat2Z.id.
  destruct (data !! a) as [x|] eqn:Ea.
  - rewrite (drop_S _ _ _ Ea). simpl. f_equal. apply IH. lia.
  - apply lookup_ge_None in Ea. lia.
Qed.

Lemma select_prefix {A} (data : list A) k :
  0 <= k <= len data -> select data (py_range k) = inr (take (Z.to_nat k) data).
Proof.
  intros Hk. rewrite select_inr.
  - unfold py_range. rewrite omap_lookup_seq by (unfold len in Hk; lia).
    reflexivity.
  - intros i Hi. apply elem_of_py_range in Hi. lia.
Qed.

Lemma shifted_seq k a n :
  0 <= k ->
  (fun i => k + i) <$> (Z.of_nat <$> seq a n) = Z.of_nat <$> seq (Z.to_nat k + a) n.
Proof.
  intros Hk. revert a. induction n as [|n IH]; intros a; [reflexivity|].
  simpl seq. rewrite !fmap_cons. f_equal; [lia|].
  rewrite IH. f_equal. f_equal. lia.
Qed.

Lemma shifted_range k m :
  0 <= k -> (fun i => k + i) <$> py_range m = Z.of_nat <$> seq (Z.to_nat k) (Z.to_nat m).
Proof.
  intros Hk. unfold py_range. rewrite shifted_seq by assumption.
  f_equal. f_equal. lia.
Qed.

Lemma select_suffix {A} (data : list A) k :
  0 <= k <= len data ->
  select data ((fun i => k + i) <$> py_range (len data - k)) = inr (drop (Z.to_nat k) data).
Proof.
  intros Hk. rewrite shifted_range by lia. rewrite select_inr.
  - rewrite omap_lookup_seq by (unfold len in *; lia).
    rewrite take_ge; [reflexivity|]. rewrite length_drop. unfold len in *. lia.
  - intros i Hi. apply list_elem_of_fmap in Hi as (j & -> & Hj).
    apply elem_of_seq in Hj. unfold len in *. lia.
Qed.

(** ** The dataset split *)

Lemma split_indices_partition n k :
  0 <= k <= n ->
  py_range k ++ ((fun i => k + i) <$> py_range (n - k)) = py_range n.
Proof.
  intros Hk. rewrite shifted_range by lia. unfold py_range.
  rewrite <- fmap_app. f_equal.
  replace (Z.to_nat n) with (Z.to_nat k + Z.to_nat (n - k))%nat by lia.
  rewrite seq_app. reflexivity.
Qed.

Lemma split_dataset_of_eval_size {A} (data : list A) k :
  eval_size (len data) = inr k -> 0 <= k <= len data ->
  split_indices (len data)
    = inr (py_range k, (fun i => k + i) <$> py_range (len data - k)) /\
  split_dataset data = inr (take (Z.to_nat k) data, drop (Z.to_nat k) data).
Proof.
  intros Hk Hr. unfold split_dataset, split_indices. rewrite Hk.
  split; [reflexivity|].
  cbn [bindR]. rewrite select_prefix by assumption. cbn [bindR].
  rewrite select_suffix by assumption. reflexivity.
Qed.

(** C1, amended: for every dataset with fewer than 2^53 + 7 rows the split
    succeeds, the eval set is the first floor(N / 50) rows and the train set is
    all the remaining rows, so its size is N - floor(N / 50). *)
Theorem split_sizes_two_percent {A} (data : list A) :
  len data < 2 ^ 53 + 7 ->
  let k := len data / 50 in
  split_dataset data = inr (take (Z.to_nat k) data, drop (Z.to_nat k) data) /\
  len (take (Z.to_nat k) data) = k /\
  len (drop (Z.to_nat k) data) = len data - k.
Proof.
  intros Hlt k.
  assert (H0 : 0 <= len data) by (unfold len; lia).
  assert (Hk : 0 <= k <= len data).
  { unfold k. pose proof (Z.div_mod (len data) 50 ltac:(lia)).
    pose proof (Z.mod_pos_bound (len data) 50 ltac:(lia)). lia. }
  split.
  - apply split_dataset_of_eval_size; [|exact Hk].
    apply eval_size_below_first_failure. lia.
  - unfold len in *. rewrite length_take, length_drop. lia.
Qed.

(** C1 on the 120 rows of the concrete run: 2 eval rows, 118 train rows. *)
Lemma split_sizes_two_percent_witness :
  len (replicate 120 VNone) < 2 ^ 53 + 7 /\
  split_dataset (replicate 120 VNone)
    = inr (replicate 2 VNone, replicate 118 VNone).
Proof.
  split; [vm_compute; reflexivity|].
  apply (split_sizes_two_percent (replicate 120 VNone)). vm_compute. reflexivity.
Defined.

Lemma split_dataset_eval_len {A} (data : list A) k :
  eval_size (len data) = inr k -> 0 <= k <= len data ->
  exists eval_data train_data,
    split_dataset data = inr (eval_data, train_data) /\ len eval_data = k.
Proof.
  intros Hk Hr. destruct (split_dataset_of_eval_size data k Hk Hr) as [_ Hs].
  eexists _, _. split; [exact Hs|].
  unfold len in *. rewrite length_take. lia.
Qed.

Lemma len_replicate {A} (n : Z) (x : A) : 0 <= n -> len (replicate (Z.to_nat n) x) = n.
Proof. intros H. unfold len. rewrite length_replicate. apply Z2Nat.id. exact H. Qed.

(** The smallest dataset size at which the eval set is not floor(0.02 * N):
    N = 2^53 + 7 becomes 2^53 + 8 on conversion to a double, and
    (2^53 + 8) * 0.02 rounds to 180143985094820, one more than floor(N / 50). *)
Lemma split_sizes_counterexample :
  exists eval_data train_data,
    split_dataset (replicate (Z.to_nat 9007199254740999) VNone) = inr (eval_data, train_data) /\
    len eval_data = 180143985094820 /\
    len (replicate (Z.to_nat 9007199254740999) VNone) / 50 = 180143985094819 /\
    len eval_data <> len (replicate (Z.to_nat 9007199254740999) VNone) / 50.
Proof.
  assert (Hlen : len (replicate (Z.to_nat 9007199254740999) VNone) = 9007199254740999).
  { apply len_replicate. discriminate. }
  assert (He : eval_size 9007199254740999 = inr 180143985094820).
  { vm_compute. reflexivity. }
  rewrite <- Hlen in He at 1.
  destruct (split_dataset_eval_len _ _ He) as (ev & tr & Hs & Hl).
  { rewrite Hlen. split; discriminate. }
  exists ev, tr. split; [exact Hs|]. split; [exact Hl|].
  rewrite Hl, Hlen. split; [reflexivity|discriminate].
Qed.

(** C5: the two index lists are disjoint and together are exactly
    0, ..., N - 1; both selections succeed and their sizes add up to N.  The
    only way the split can fail is the conversion of N to a double, for
    N >= 2^1023. *)
Theorem split_disjoint_and_covering {A} (data : list A) :
  match split_indices (len data) with
  | inr (eval_indices, train_indices) =>
      (forall i, i ∈ eval_indices -> i ∉ train_indices) /\
      eval_indices ++ train_indices = py_range (len data) /\
      exists eval_data train_data,
        select data eval_indices = inr eval_data /\
        select data train_indices = inr train_data /\
        split_dataset data = inr (eval_data, train_data) /\
        len eval_data + len train_data = len data
  | inl e => e = OverflowError /\ 2 ^ 1023 <= len data
  end.
Proof.
  assert (H0 : 0 <= len data) by (unfold len; lia).
  pose proof (eval_size_total (len data) H0) as Ht.
  destruct (eval_size (len data)) as [e|k] eqn:Ek.
  - unfold split_indices. rewrite Ek. exact Ht.
  - destruct (split_dataset_of_eval_size data k Ek Ht) as [Hi Hs].
    rewrite Hi. split; [|split].
    + intros i Hi1 Hi2. apply elem_of_py_range in Hi1.
      apply list_elem_of_fmap in Hi2 as (j & -> & Hj).
      apply elem_of_py_range in Hj. lia.
    + apply split_indices_partition. exact Ht.
    + exists (take (Z.to_nat k) data), (drop (Z.to_nat k) data).
      rewrite select_prefix, select_suffix by exact Ht.
      repeat split; [exact Hs|].
      unfold len in *. rewrite length_take, length_drop. lia.
Qed.

(** ** Runs and their traces *)

Lemma bindM_outcome {A B} (m : M A) (k : A -> M B) :
  (bindM m k).1 = match m.1 with inl e => inl e | inr a => (k a).1 end.
Proof. destruct m as [[e|a] t]; simpl; [reflexivity|]. destruct (k a). reflexivity. Qed.

Lemma bindM_trace {A B} (m : M A) (k : A -> M B) :
  (bindM m k).2 = m.2 ++ match m.1 with inl e => [] | inr a => (k a).2 end.
Proof.
  destruct m as [[e|a] t]; simpl; [rewrite app_nil_r; reflexivity|].
  destruct (k a). reflexivity.
Qed.

Lemma bindM_lift_inr {A B} (a : A) (k : A -> M B) : bindM (lift (inr a)) k = k a.
Proof. unfold bindM, lift. destruct (k a). reflexivity. Qed.

Lemma bindM_lift_inl {A B} (e : exn) (k : A -> M B) : bindM (lift (inl e)) k = (inl e, []).
Proof. reflexivity. Qed.

Lemma bindM_ret {A B} (a : A) (k : A -> M B) : bindM (ret a) k = k a.
Proof. apply bindM_lift_inr. Qed.

Lemma bindM_emit {B} (ev : event) (k : unit -> M B) :
  bindM (emit ev) k = ((k tt).1, ev :: (k tt).2).
Proof. unfold bindM, emit. destruct (k tt). reflexivity. Qed.

Lemma emits_bind {A B} P (m : M A) (k : A -> M B) :
  emits P m -> (forall a, m.1 = inr a -> emits P (k a)) -> emits P (bindM m k).
Proof.
  unfold emits. intros Hm Hk. rewrite bindM_trace. apply Forall_app. split; [exact Hm|].
  destruct m.1 as [e|a]; [constructor|]. apply Hk. reflexivity.
Qed.

Lemma emits_lift {A} P (r : result A) : emits P (lift r).
Proof. constructor. Qed.

Lemma emits_ret {A} P (a : A) : emits P (ret a).
Proof. constructor. Qed.

Lemma emits_raise {A} P (e : exn) : emits P (@raise A e).
Proof. constructor. Qed.

Lemma emits_emit P ev : P ev -> emits P (emit ev).
Proof. intros H. constructor; [exact H|constructor]. Qed.

Ltac emits_step :=
  lazymatch goal with
  | |- emits _ (bindM _ _) =>
      apply emits_bind; [| let a := fresh "a" in let Ha := fresh "Ha" in intros a Ha]
  | |- emits _ (lift _) => apply emits_lift
  | |- emits _ (ret _) => apply emits_ret
  | |- emits _ (raise _) => apply emits_raise
  | |- emits _ (emit _) => apply emits_emit
  | |- emits _ (if ?b then _ else _) => destruct b eqn:?
  | |- emits _ (match ?x with pair _ _ => _ end) => destruct x
  end.

Lemma call_model_loop_emits P w round m ml i batches answers :
  (forall b, P (EGenerate b ml)) ->
  emits P (call_model_loop w round m ml i batches answers).
Proof.
  intros HP. revert i answers.
  induction batches as [|b rest IH]; intros i answers; cbn [call_model_loop].
  - apply emits_ret.
  - repeat emits_step; [apply HP | apply IH].
Qed.

Lemma call_model_emits P w round m prompts bs ml :
  (forall b, P (EGenerate b ml)) ->
  emits P (call_model w round m prompts bs ml).
Proof.
  intros HP. unfold call_model. repeat emits_step.
  apply call_model_loop_emits. exact HP.
Qed.

Lemma on_evaluate_emits P w round m ds :
  (forall b ml, P (EGenerate b ml)) ->
  (rank w = 0 -> forall k t, P (EWandbLog k t)) ->
  emits P (on_evaluate w round m ds).
Proof.
  intros Hg Hl. unfold on_evaluate. repeat emits_step.
  - apply call_model_emits. intros b. apply Hg.
  - apply Hl. lia.
Qed.

Lemma trainer_loop_emits P w m ds steps round :
  (forall b ml, P (EGenerate b ml)) ->
  (rank w = 0 -> forall k t, P (EWandbLog k t)) ->
  emits P (trainer_loop w m ds steps round).
Proof.
  intros Hg Hl. revert round.
  induction steps as [|[| |e] rest IH]; intros round; cbn [trainer_loop].
  - apply emits_ret.
  - apply IH.
  - repeat emits_step; [apply on_evaluate_emits; assumption | apply IH].
  - apply emits_raise.
Qed.

Lemma trainer_train_emits P w m ds :
  P ETrainBegin -> P ETrainEnd ->
  (forall b ml, P (EGenerate b ml)) ->
  (rank w = 0 -> forall k t, P (EWandbLog k t)) ->
  emits P (trainer_train w m ds).
Proof.
  intros Hb He Hg Hl. unfold trainer_train. repeat emits_step; try assumption.
  apply trainer_loop_emits; assumption.
Qed.

(** C7: every experiment-tracking call in a run of [train], and in a run of
    [on_evaluate], happens on a process whose rank is 0; on any other rank the
    run contains no such call. *)
Theorem tracking_only_on_rank_0 (w : World) :
  (forall config e, e ∈ (train w config).2 -> tracking e -> rank w = 0) /\
  (forall round m dataset e,
     e ∈ (on_evaluate w round m dataset).2 -> tracking e -> rank w = 0).
Proof.
  split.
  - intros config.
    apply (proj1 (Forall_forall (fun e => tracking e -> rank w = 0) _)).
    change (emits (fun e => tracking e -> rank w = 0) (train w config)).
    unfold train. repeat emits_step; try (simpl; tauto).
    + intros _. lia.
    + apply trainer_train_emits; simpl; tauto.
  - intros round m ds.
    apply (proj1 (Forall_forall (fun e => tracking e -> rank w = 0) _)).
    apply on_evaluate_emits; simpl; tauto.
Qed.

(** ** Persistence *)

Lemma save_shape_bind {A B} config (m : M A) (k : A -> M B) :
  emits (fun e => ~ is_save e) m ->
  (forall a, m.1 = inr a -> save_shape config (k a)) ->
  save_shape config (bindM m k).
Proof.
  intros Hm Hk. unfold save_shape, emits. rewrite bindM_trace, bindM_outcome.
  destruct m.1 as [e|a].
  - left. rewrite app_nil_r. exact Hm.
  - destruct (Hk a eq_refl) as [Hn|(t & d & Ht & Hf & Hb & Hd & Ho)].
    + left. apply Forall_app. split; assumption.
    + right. exists (m.2 ++ t), d. rewrite Ht, app_assoc.
      split; [reflexivity|]. split; [apply Forall_app; split; assumption|].
      split; [apply elem_of_app; right; exact Hb|]. split; assumption.
Qed.

Lemma trainer_train_outcome w m ds :
  let loop := trainer_loop w m ds (schedule w) 0 in
  (trainer_train w m ds).1 = loop.1 /\
  (trainer_train w m ds).2
    = ETrainBegin :: loop.2 ++ match loop.1 with inl _ => [] | inr _ => [ETrainEnd] end.
Proof.
  intros loop. unfold trainer_train. rewrite bindM_emit. cbn [fst snd].
  rewrite bindM_outcome, bindM_trace. fold loop.
  destruct loop.1 as [e|[]]; split; reflexivity.
Qed.

Lemma trainer_loop_no_save w m ds steps round :
  emits (fun e => ~ is_save e) (trainer_loop w m ds steps round).
Proof. apply trainer_loop_emits; simpl; tauto. Qed.

(** [ETrainEnd] marks the normal return of [trainer.train()]: it is in the
    trace exactly when the loop ran to the end of its schedule without an
    exception. *)
Lemma train_end_iff_returned w m ds :
  ETrainEnd ∈ (trainer_train w m ds).2 <-> (trainer_train w m ds).1 = inr tt.
Proof.
  destruct (trainer_train_outcome w m ds) as [Ho Ht]. rewrite Ho, Ht.
  assert (Hn : ETrainEnd ∉ (trainer_loop w m ds (schedule w) 0).2).
  { intros Hin.
    assert (He : emits (fun e => e <> ETrainEnd) (trainer_loop w m ds (schedule w) 0))
      by (apply trainer_loop_emits; intros; discriminate).
    apply (proj1 (Forall_forall _ _) He) in Hin. congruence. }
  destruct (trainer_loop w m ds (schedule w) 0).1 as [e|[]].
  - rewrite app_nil_r. split; [|discriminate].
    intros Hin. apply elem_of_cons in Hin as [Hin|Hin]; [discriminate|contradiction].
  - split; [reflexivity|]. intros _. right. apply elem_of_app. right. left.
Qed.

Lemma save_tail_shape config w m ds (r1 : result pyval) (r2 : pyval -> result pyval) :
  (forall ta, r1 = inr ta -> config !! "train_args" = Some ta) ->
  (forall ta, r2 ta = subscript ta "output_dir") ->
  save_shape config
    (do _ <- trainer_train w m ds;
     do train_args <- lift r1;
     do output_dir <- lift (r2 train_args);
     emit (ESavePretrained output_dir)).
Proof.
  intros H1 H2. unfold save_shape, emits. rewrite bindM_trace, bindM_outcome.
  destruct (trainer_train_outcome w m ds) as [Ho Ht]. rewrite Ho, Ht.
  pose proof (trainer_loop_no_save w m ds (schedule w) 0) as Hl. unfold emits in Hl.
  destruct (trainer_loop w m ds (schedule w) 0).1 as [e|[]].
  - left. rewrite !app_nil_r. constructor; [simpl; tauto|exact Hl].
  - destruct r1 as [e1|ta] eqn:E1.
    { left. rewrite bindM_lift_inl, app_nil_r. cbn [snd].
      constructor; [simpl; tauto|]. apply Forall_app. split; [exact Hl|].
      constructor; [simpl; tauto|constructor]. }
    rewrite bindM_lift_inr. destruct (r2 ta) as [e2|d] eqn:E2.
    { left. rewrite bindM_lift_inl, app_nil_r. cbn [snd].
      constructor; [simpl; tauto|]. apply Forall_app. split; [exact Hl|].
      constructor; [simpl; tauto|constructor]. }
    rewrite bindM_lift_inr. right.
    exists (ETrainBegin :: (trainer_loop w m ds (schedule w) 0).2), d.
    cbn [emit fst snd]. split.
    { cbn [app]. rewrite <- app_assoc. reflexivity. }
    split; [constructor; [simpl; tauto|exact Hl]|].
    split; [left|]. split; [|exists tt; reflexivity].
    exists ta. split; [apply H1; reflexivity|]. rewrite <- H2. exact E2.
Qed.

Ltac shape_step :=
  lazymatch goal with
  | |- save_shape _ (bindM (trainer_train _ _ _) _) => fail
  | |- save_shape _ (bindM _ _) =>
      apply save_shape_bind; [| let a := fresh "a" in let Ha := fresh "Ha" in intros a Ha]
  | |- save_shape _ (match ?x with pair _ _ => _ end) => destruct x
  end.

Lemma train_save_shape w config : save_shape config (train w config).
Proof.
  unfold train. repeat shape_step; try (repeat emits_step; simpl; tauto).
  apply (save_tail_shape config w _ _ _ (fun ta => subscript ta "output_dir")).
  - intros ta Hta. unfold getitem in Hta.
    rewrite !lookup_insert_ne in Hta by discriminate.
    destruct (config !! "train_args"); congruence.
  - reflexivity.
Qed.

Lemma first_save_unique (t t1 t2 : list event) d d' :
  Forall (fun e => ~ is_save e) t ->
  t ++ [ESavePretrained d'] = t1 ++ ESavePretrained d :: t2 ->
  t1 = t /\ d = d' /\ t2 = [].
Proof.
  intros Hf. revert t1. induction Hf as [|e t He Hf IH]; intros t1 Heq.
  - destruct t1 as [|e1 t1]; simpl in Heq.
    + injection Heq as <- <-. auto.
    + injection Heq as _ Heq. destruct t1; discriminate.
  - destruct t1 as [|e1 t1]; simpl in Heq.
    + injection Heq as -> _. simpl in He. tauto.
    + injection Heq as <- Heq. destruct (IH _ Heq) as (-> & -> & ->). auto.
Qed.

(** C8: whenever a run of [train] persists the model, the save is the last
    event of the run, it comes directly after the return of the training loop
    (which had begun before), nothing was saved earlier, and the directory is
    [config["train_args"]["output_dir"]]. *)
Theorem save_only_after_training w config t1 d t2 :
  (train w config).2 = t1 ++ ESavePretrained d :: t2 ->
  (exists t0, t1 = t0 ++ [ETrainEnd] /\ ETrainBegin ∈ t0) /\
  Forall (fun e => ~ is_save e) t1 /\
  t2 = [] /\
  (exists ta, config !! "train_args" = Some ta /\ subscript ta "output_dir" = inr d) /\
  (train w config).1 = inr tt.
Proof.
  intros Heq.
  destruct (train_save_shape w config) as [Hn|(t & d' & Ht & Hf & Hb & Hd & [[] Ho])].
  - exfalso. unfold emits in Hn. rewrite Heq in Hn.
    apply Forall_app in Hn as [_ Hn]. apply Forall_cons in Hn as [Hn _].
    apply Hn. exact I.
  - rewrite Ht in Heq.
    change (t ++ [ETrainEnd; ESavePretrained d'])
      with (t ++ [ETrainEnd] ++ [ESavePretrained d']) in Heq.
    rewrite app_assoc in Heq.
    assert (Hf' : Forall (fun e => ~ is_save e) (t ++ [ETrainEnd])).
    { apply Forall_app. split; [exact Hf|]. constructor; [simpl; tauto|constructor]. }
    destruct (first_save_unique _ _ _ _ _ Hf' Heq) as (-> & -> & ->).
    split; [exists t; split; [reflexivity|exact Hb]|].
    split; [exact Hf'|]. split; [reflexivity|]. split; assumption.
Qed.

(** ** Validation of the trainer key *)

Lemma outcome_emit {B} (ev : event) (k : unit -> M B) : (bindM (emit ev) k).1 = (k tt).1.
Proof. rewrite bindM_emit. reflexivity. Qed.

Lemma trace_emit {B} (ev : event) (k : unit -> M B) :
  (bindM (emit ev) k).2 = ev :: (k tt).2.
Proof. rewrite bindM_emit. reflexivity. Qed.

Lemma split_dataset_total {A} (data : list A) :
  len data < 2 ^ 1023 ->
  exists eval_data train_data, split_dataset data = inr (eval_data, train_data).
Proof.
  intros Hlt.
  pose proof (eval_size_total (len data) ltac:(unfold len; lia)) as Ht.
  destruct (eval_size (len data)) as [e|k] eqn:Ek; [lia|].
  destruct (split_dataset_of_eval_size data k Ek Ht) as [_ Hs]. eauto.
Qed.

Lemma choose_adapter_cases v :
  (v = VStr "unmasked" /\ choose_adapter v = inr SFTDataset) \/
  (v = VStr "masked" /\ choose_adapter v = inr MaskedSFTDataset) \/
  (v <> VStr "unmasked" /\ v <> VStr "masked" /\
   choose_adapter v = inl (ValueError "{} is unsupported train type!" [v])).
Proof.
  unfold choose_adapter, eq_str.
  destruct v as [| | | |s| |]; try (right; right; repeat split; congruence).
  destruct (bool_decide_reflect (s = "unmasked")) as [->|H1]; [left; auto|].
  destruct (bool_decide_reflect (s = "masked")) as [->|H2]; [right; left; auto|].
  right; right. repeat split; congruence.
Qed.

Section WellFormedConfig.

Variable w : World.
Variable config : gmap string pyval.
Variables tokenizer_path model_path data_path trainer : pyval.
Variable train_args : gmap string pyval.

Hypothesis Htokenizer_path : config !! "tokenizer_path" = Some tokenizer_path.
Hypothesis Htrain_args : config !! "train_args" = Some (VDict train_args).
Hypothesis Hmodel_path : config !! "model_path" = Some model_path.
Hypothesis Hdata_path : config !! "data_path" = Some data_path.
Hypothesis Htrainer : config !! "trainer" = Some trainer.
Hypothesis Hsize : len (load_dataset w data_path) < 2 ^ 1023.

Let config' : gmap string pyval :=
  <["fp16_full_eval" := VBool true]> (<["eval_accumulation_steps" := VInt 2]> config).

Lemma getitem_updated key v :
  key <> "fp16_full_eval" -> key <> "eval_accumulation_steps" ->
  config !! key = Some v -> getitem config' key = inr v.
Proof.
  intros H1 H2 Hv. unfold getitem, config'.
  rewrite !lookup_insert_ne by congruence. rewrite Hv. reflexivity.
Qed.

(** The run of [train] up to the choice of the adapter: six library calls and,
    on rank 0, the tracking initialisation, then the validation. *)
Lemma train_until_validation :
  exists eval_data data pre,
    split_dataset (load_dataset w data_path) = inr (eval_data, data) /\
    Forall (fun e => forall a b, e <> ETrainer a b) pre /\
    match choose_adapter trainer with
    | inl e => train w config = (inl e, pre)
    | inr k =>
        exists rest,
          (train w config).2
            = pre ++ ETrainer (make_dataset w k data) (make_dataset w k eval_data) :: rest
    end.
Proof.
  destruct (split_dataset_total _ Hsize) as (eval_data & data & Hs).
  exists eval_data, data.
  pose proof (getitem_updated "tokenizer_path" _ ltac:(discriminate) ltac:(discriminate)
                Htokenizer_path) as G1.
  pose proof (getitem_updated "train_args" _ ltac:(discriminate) ltac:(discriminate)
                Htrain_args) as G2.
  pose proof (getitem_updated "model_path" _ ltac:(discriminate) ltac:(discriminate)
                Hmodel_path) as G3.
  pose proof (getitem_updated "data_path" _ ltac:(discriminate) ltac:(discriminate)
                Hdata_path) as G4.
  pose proof (getitem_updated "trainer" _ ltac:(discriminate) ltac:(discriminate)
                Htrainer) as G5.
  set (tracking_init :=
         if rank w =? 0 then [EWandbInit "tclx" config'] else []).
  exists ([ETokenizerFromPretrained tokenizer_path; ETrainingArguments train_args;
           EModelFromPretrained model_path; EModelCuda; ELoadDataset data_path]
          ++ tracking_init ++ [EPrint "Len data: " (len data)]).
  split; [exact Hs|]. split.
  { repeat (constructor; [intros; discriminate|]).
    apply Forall_app. split.
    - unfold tracking_init. destruct (rank w =? 0); repeat constructor; intros; discriminate.
    - repeat constructor; intros; discriminate. }
  assert (Hrun : forall X (k : unit -> M X),
             bindM (if rank w =? 0 then emit (EWandbInit "tclx" config') else ret tt) k
             = ((k tt).1, tracking_init ++ (k tt).2)).
  { intros X k. unfold tracking_init. destruct (rank w =? 0).
    - apply bindM_emit.
    - rewrite bindM_ret. destruct (k tt). reflexivity. }
  destruct (choose_adapter trainer) as [e|k] eqn:Ek.
  - apply injective_projections.
    + unfold train. fold config'. cbv zeta.
      rewrite G1, bindM_lift_inr, outcome_emit, G2, bindM_lift_inr. cbn [kwargs].
      rewrite bindM_lift_inr, outcome_emit, G3, bindM_lift_inr, !outcome_emit,
        G4, bindM_lift_inr, outcome_emit, Hs, bindM_lift_inr, Hrun.
      cbn [fst]. rewrite outcome_emit, G5, bindM_lift_inr, Ek. reflexivity.
    + unfold train. fold config'. cbv zeta.
      rewrite G1, bindM_lift_inr, trace_emit, G2, bindM_lift_inr. cbn [kwargs].
      rewrite bindM_lift_inr, trace_emit, G3, bindM_lift_inr, !trace_emit,
        G4, bindM_lift_inr, trace_emit, Hs, bindM_lift_inr, Hrun.
      cbn [snd]. rewrite trace_emit, G5, bindM_lift_inr, Ek. reflexivity.
  - eexists. unfold train. fold config'. cbv zeta.
    rewrite G1, bindM_lift_inr, trace_emit, G2, bindM_lift_inr. cbn [kwargs].
    rewrite bindM_lift_inr, trace_emit, G3, bindM_lift_inr, !trace_emit,
      G4, bindM_lift_inr, trace_emit, Hs, bindM_lift_inr, Hrun.
    cbn [snd]. rewrite trace_emit, G5, bindM_lift_inr, Ek, bindM_lift_inr, trace_emit.
    cbn [app]. rewrite <- app_assoc. reflexivity.
Qed.

(** C2: with the other configuration keys in place, a [trainer] value other
    than "unmasked" and "masked" makes [train] raise the [ValueError] of line
    78 and no trainer is constructed; "unmasked" selects [SFTDataset] and
    "masked" selects [MaskedSFTDataset] for both shards, and the trainer is
    constructed with them. *)
Theorem trainer_value_validated :
  (trainer <> VStr "unmasked" -> trainer <> VStr "masked" ->
   (train w config).1 = inl (ValueError "{} is unsupported train type!" [trainer]) /\
   forall a b, ETrainer a b ∉ (train w config).2) /\
  (trainer = VStr "unmasked" ->
   choose_adapter trainer = inr SFTDataset /\
   exists a b, ETrainer a b ∈ (train w config).2 /\
               kind a = SFTDataset /\ kind b = SFTDataset) /\
  (trainer = VStr "masked" ->
   choose_adapter trainer = inr MaskedSFTDataset /\
   exists a b, ETrainer a b ∈ (train w config).2 /\
               kind a = MaskedSFTDataset /\ kind b = MaskedSFTDataset).
Proof.
  destruct train_until_validation as (eval_data & data & pre & _ & Hpre & Hrun).
  destruct (choose_adapter_cases trainer) as [[Hv Hc]|[[Hv Hc]|(Hv1 & Hv2 & Hc)]];
    rewrite Hc in Hrun.
  - split; [intros; congruence|]. split; [|intros; congruence].
    intros _. split; [exact Hc|]. destruct Hrun as [rest Hrun].
    eexists _, _. split; [rewrite Hrun; apply elem_of_app; right; left|].
    split; reflexivity.
  - split; [intros; congruence|]. split; [intros; congruence|].
    intros _. split; [exact Hc|]. destruct Hrun as [rest Hrun].
    eexists _, _. split; [rewrite Hrun; apply elem_of_app; right; left|].
    split; reflexivity.
  - split; [|split; intros; congruence].
    intros _ _. rewrite Hrun. split; [reflexivity|].
    intros a b Hin. cbn [snd] in Hin.
    exact (proj1 (Forall_forall _ _) Hpre _ Hin a b eq_refl).
Qed.

End WellFormedConfig.

(** ** The training arguments *)

(** What reaches [TrainingArguments] in a run of [train] is the dictionary
    stored under "train_args" in the configuration [train] was called with. *)
Lemma train_training_arguments w config kw :
  ETrainingArguments kw ∈ (train w config).2 ->
  config !! "train_args" = Some (VDict kw).
Proof.
  set (P := fun e => forall kw, e = ETrainingArguments kw ->
                                config !! "train_args" = Some (VDict kw)).
  assert (H : emits P (train w config)).
  { unfold train. repeat emits_step; try (intros ? ?; discriminate).
    - intros kw' [= <-]. cbn [lift fst] in *.
      match goal with
      | Hg : getitem _ "train_args" = inr ?v, Hk : kwargs ?v = inr _ |- _ =>
          unfold getitem in Hg; rewrite !lookup_insert_ne in Hg by discriminate;
          destruct (config !! "train_args") as [v'|]; [|discriminate];
          injection Hg as ->; destruct v; try discriminate;
          injection Hk as ->; reflexivity
      end.
    - apply trainer_train_emits; intros; intros ? ?; discriminate. }
  intros Hin. exact (proj1 (Forall_forall _ _) H _ Hin kw eq_refl).
Qed.

Lemma train_constructs_arguments w config tp ta :
  config !! "tokenizer_path" = Some tp ->
  config !! "train_args" = Some (VDict ta) ->
  ETrainingArguments ta ∈ (train w config).2.
Proof.
  intros Htp Hta. unfold train. cbv zeta.
  rewrite (getitem_updated config "tokenizer_path" tp) by (discriminate || assumption).
  rewrite bindM_lift_inr, trace_emit.
  rewrite (getitem_updated config "train_args" (VDict ta)) by (discriminate || assumption).
  rewrite bindM_lift_inr. cbn [kwargs]. rewrite bindM_lift_inr, trace_emit.
  right. left.
Qed.

Section Main.

Variable w : World.
Variable args : cli_args.
Variable yaml : gmap string pyval.
Variable yaml_train_args : gmap string pyval.

Hypothesis Hyaml : load_yaml w (of_option_str (config_path args)) = VDict yaml.
Hypothesis Htrain_args : yaml !! "train_args" = Some (VDict yaml_train_args).

Lemma main_calls_train :
  main w args
  = train w (<["train_args" :=
                 VDict (<["deepspeed" := of_option_str (ds_config_path args)]> yaml_train_args)]>
               yaml).
Proof.
  unfold main. rewrite Hyaml. cbn [subscript]. unfold getitem. rewrite Htrain_args.
  rewrite bindM_lift_inr. cbn [store_subscript]. rewrite bindM_lift_inr. reflexivity.
Qed.

(** C6, amended: the argument object is constructed from the YAML [train_args]
    mapping with the key "deepspeed" set to the value of --ds_config_path
    (None when the flag is absent); every other key-value pair is the YAML
    one, and nothing else is added or changed. *)
Theorem train_args_forwarded_with_deepspeed :
  let passed := <["deepspeed" := of_option_str (ds_config_path args)]> yaml_train_args in
  (forall kw, ETrainingArguments kw ∈ (main w args).2 -> kw = passed) /\
  (forall tp, yaml !! "tokenizer_path" = Some tp ->
              ETrainingArguments passed ∈ (main w args).2) /\
  passed !! "deepspeed" = Some (of_option_str (ds_config_path args)) /\
  (forall key, key <> "deepspeed" -> passed !! key = yaml_train_args !! key).
Proof.
  intros passed. rewrite main_calls_train. fold passed.
  split; [|split; [|split]].
  - intros kw Hin. apply train_training_arguments in Hin.
    rewrite lookup_insert_eq in Hin. congruence.
  - intros tp Htp. apply (train_constructs_arguments w _ tp).
    + rewrite lookup_insert_ne by discriminate. exact Htp.
    + apply lookup_insert_eq.
  - apply lookup_insert_eq.
  - intros key Hk. apply lookup_insert_ne. congruence.
Qed.

End Main.

(** ** Padding and stacking *)

Lemma flip_pad_flip_nil pad :
  flip_pad_flip [] pad = inl (RuntimeError "received an empty list of sequences").
Proof. reflexivity. Qed.

Lemma pad_sequence_spec seqs v :
  seqs <> [] ->
  torch.pad_sequence seqs v
  = inr ((fun s => s ++ replicate (max_list (length <$> seqs) - length s) v) <$> seqs).
Proof. intros Hne. destruct seqs; [congruence|reflexivity]. Qed.

Lemma flip_pad_flip_spec batch pad :
  batch <> [] ->
  flip_pad_flip batch pad
  = inr (left_padded pad (max_list (length <$> batch)) <$> batch).
Proof.
  intros Hne. unfold flip_pad_flip.
  rewrite pad_sequence_spec by (destruct batch; [congruence|discriminate]).
  cbn [bindR]. f_equal. unfold torch.flip1.
  assert (E : length <$> (torch.flip0 <$> batch) = length <$> batch).
  { rewrite <- list_fmap_compose. apply list_fmap_ext. intros _ q _.
    simpl. unfold torch.flip0. apply length_reverse. }
  rewrite E, <- !list_fmap_compose. apply list_fmap_ext. intros _ q _. simpl.
  unfold torch.flip0, left_padded.
  rewrite reverse_app, reverse_replicate, reverse_involutive, length_reverse.
  reflexivity.
Qed.

(** The rows of the flip-pad-flip step for an arbitrary padding value. *)
Lemma flip_pad_flip_rows (prompt : torch.tensor1) (prompts : list torch.tensor1)
    (pad : Z) :
  let batch := prompt :: prompts in
  let longest := max_list (length <$> batch) in
  exists rows,
    flip_pad_flip batch pad = inr rows /\
    length rows = length batch /\
    (exists q, q ∈ batch /\ length q = longest) /\
    forall i q, batch !! i = Some q ->
      (length q <= longest)%nat /\
      exists row, rows !! i = Some row /\
        length row = longest /\
        row = replicate (longest - length q) pad ++ q.
Proof.
  intros batch longest.
  assert (Hne : batch <> []) by discriminate. clearbody batch.
  exists (left_padded pad longest <$> batch).
  split; [apply flip_pad_flip_spec; exact Hne|].
  split; [apply length_fmap|]. split.
  - assert (Hin : longest ∈ length <$> batch)
      by (apply max_list_elem_of; destruct batch; [congruence|discriminate]).
    apply list_elem_of_fmap in Hin as (q & Hq & Hin). eauto.
  - intros i q Hi.
    assert (Hle : (length q <= longest)%nat).
    { apply max_list_elem_of_le, list_elem_of_fmap. exists q. split; [reflexivity|].
      apply list_elem_of_lookup. eauto. }
    split; [exact Hle|]. exists (left_padded pad longest q).
    split; [rewrite list_lookup_fmap, Hi; reflexivity|].
    split; [|reflexivity].
    unfold left_padded. rewrite length_app, length_replicate. lia.
Qed.

(** C3, amended: in [call_model], for a tokenizer whose pad token encodes to
    a non-empty sequence, the flip-pad-flip step on a batch of prompts yields
    the batch that is passed to the model: one row per prompt, every row of
    the length of the longest prompt of the batch and equal to that prompt's
    tokens, in their order, preceded only by copies of the padding value of
    line 27, tok(tok.pad_token).input_ids[0], the first id of the encoded pad
    token.  That value is the pad token id exactly when the tokenizer encodes
    the pad token to a sequence that starts with the pad token's own id. *)
Theorem call_model_left_pads w round m max_length i
    (prompt : list Z) (prompts : list (list Z)) rest answers p v vs :
  pad_token (tok m) = Some p -> encode (tok m) p = v :: vs ->
  let batch := prompt :: prompts in
  let longest := max_list (length <$> batch) in
  exists rows tail,
    padding_value (tok m) = inr v /\
    (try pad <- padding_value (tok m); flip_pad_flip batch pad) = inr rows /\
    (call_model_loop w round m max_length i (batch :: rest) answers).2
      = EGenerate rows max_length :: tail /\
    length rows = length batch /\
    (exists q, q ∈ batch /\ length q = longest) /\
    (forall j q, batch !! j = Some q ->
       (length q <= longest)%nat /\
       exists row, rows !! j = Some row /\
         length row = longest /\
         row = replicate (longest - length q) v ++ q) /\
    (pad_token_id (tok m) = Some v <-> token_to_id (tok m) p = v).
Proof.
  intros Hp Henc batch longest.
  assert (Hpad : padding_value (tok m) = inr v)
    by (unfold padding_value; rewrite Hp, Henc; reflexivity).
  destruct (flip_pad_flip_rows prompt prompts v) as (rows & Hrows & Hlen & Hmax & Hrow).
  fold batch in Hrows, Hlen, Hmax, Hrow. fold longest in Hmax, Hrow.
  exists rows. eexists.
  split; [exact Hpad|].
  split; [rewrite Hpad; exact Hrows|].
  split.
  { cbn [call_model_loop]. fold batch.
    rewrite Hpad, bindM_lift_inr, Hrows, bindM_lift_inr, trace_emit. reflexivity. }
  split; [exact Hlen|]. split; [exact Hmax|]. split; [exact Hrow|].
  unfold pad_token_id. rewrite Hp. cbn. split; [intros [= ->]; reflexivity|intros ->; reflexivity].
Qed.

Lemma stack_spec (ts : list torch.tensor1) L :
  ts <> [] -> Forall (fun t => length t = L) ts -> torch.stack ts = inr ts.
Proof.
  intros Hne Hall. unfold torch.stack. destruct ts as [|t ts']; [congruence|].
  assert (E : forallb (fun u => (length u =? length t)%nat) (t :: ts') = true).
  { apply forallb_forall. intros u Hu. apply list_elem_of_In in Hu.
    apply Nat.eqb_eq.
    rewrite (proj1 (Forall_forall _ _) Hall u Hu).
    rewrite (proj1 (Forall_forall _ _) Hall t ltac:(left)). reflexivity. }
  rewrite E. reflexivity.
Qed.

Lemma shape_uniform (ts : list torch.tensor1) L :
  ts <> [] -> Forall (fun t => length t = L) ts -> torch.shape ts = (length ts, L).
Proof.
  intros Hne Hall. unfold torch.shape. destruct ts as [|t ts']; [congruence|].
  f_equal. apply (proj1 (Forall_forall _ _) Hall). left.
Qed.

(** C4: on a batch of examples whose three components all have length [L]
    the collation function returns a dictionary with exactly the keys
    "input_ids", "attention_mask" and "labels"; each value has shape
    (batch size, L) and its row [i] is the matching component of example [i]. *)
Theorem data_collator_stacks (f : example) (fs : list example) (L : nat) :
  let batch := f :: fs in
  (forall g, g ∈ batch -> length g.1.1 = L /\ length g.1.2 = L /\ length g.2 = L) ->
  exists (m : gmap string torch.tensor2) input_ids attention_mask labels,
    data_collator batch = inr m /\
    dom m = {["input_ids"; "attention_mask"; "labels"]} /\
    m !! "input_ids" = Some input_ids /\
    m !! "attention_mask" = Some attention_mask /\
    m !! "labels" = Some labels /\
    torch.shape input_ids = (length batch, L) /\
    torch.shape attention_mask = (length batch, L) /\
    torch.shape labels = (length batch, L) /\
    forall i g, batch !! i = Some g ->
      input_ids !! i = Some g.1.1 /\
      attention_mask !! i = Some g.1.2 /\
      labels !! i = Some g.2.
Proof.
  intros batch Hall.
  assert (Hne : batch <> []) by discriminate. clearbody batch.
  assert (Hne' : forall (h : example -> torch.tensor1), h <$> batch <> [])
    by (intros h; destruct batch; [congruence|discriminate]).
  assert (H1 : Forall (fun t => length t = L) ((fun g : example => g.1.1) <$> batch)).
  { apply Forall_fmap, Forall_forall. intros g Hg. apply (Hall g Hg). }
  assert (H2 : Forall (fun t => length t = L) ((fun g : example => g.1.2) <$> batch)).
  { apply Forall_fmap, Forall_forall. intros g Hg. apply (Hall g Hg). }
  assert (H3 : Forall (fun t => length t = L) ((fun g : example => g.2) <$> batch)).
  { apply Forall_fmap, Forall_forall. intros g Hg. apply (Hall g Hg). }
  eexists _, ((fun g : example => g.1.1) <$> batch),
    ((fun g : example => g.1.2) <$> batch), ((fun g : example => g.2) <$> batch).
  split.
  { unfold data_collator.
    rewrite (stack_spec _ L) by (apply Hne' || assumption). cbn [bindR].
    rewrite (stack_spec _ L) by (apply Hne' || assumption). cbn [bindR].
    rewrite (stack_spec _ L) by (apply Hne' || assumption). cbn [bindR].
    reflexivity. }
  split; [rewrite !dom_insert_L, dom_empty_L; set_solver|].
  split; [apply lookup_insert_eq|].
  split; [rewrite lookup_insert_ne by discriminate; apply lookup_insert_eq|].
  split; [rewrite !lookup_insert_ne by discriminate; apply lookup_insert_eq|].
  split; [rewrite (shape_uniform _ L), length_fmap by (apply Hne' || assumption); reflexivity|].
  split; [rewrite (shape_uniform _ L), length_fmap by (apply Hne' || assumption); reflexivity|].
  split; [rewrite (shape_uniform _ L), length_fmap by (apply Hne' || assumption); reflexivity|].
  intros i g Hi. rewrite !list_lookup_fmap, Hi. auto.
Qed.

(** ** Slices and batches *)

Lemma py_slice_prefix {A} (l : list A) (b : Z) :
  0 <= b -> py_slice l 0 b = take (Z.to_nat b) l.
Proof.
  intros Hb. unfold py_slice, slice_index. cbn [Z.ltb Z.compare].
  destruct (b <? 0) eqn:E; [apply Z.ltb_lt in E; lia|].
  assert (H0 : 0 <= len l) by (unfold len; lia).
  replace (Z.to_nat (Z.max 0 (Z.min (len l) 0))) with 0%nat by lia.
  rewrite drop_0.
  destruct (Z_le_gt_dec b (len l)) as [Hle|Hgt].
  - f_equal. lia.
  - rewrite !take_ge; [reflexivity| |]; unfold len in *; lia.
Qed.

Lemma py_slice_chunk {A} (l : list A) (i bs : Z) :
  0 < bs -> 0 <= i ->
  py_slice l (i * bs) ((i + 1) * bs) = take (Z.to_nat bs) (drop (Z.to_nat i * Z.to_nat bs) l).
Proof.
  intros Hbs Hi. unfold py_slice, slice_index.
  assert (H0 : 0 <= len l) by (unfold len; lia).
  assert (Hib : 0 <= i * bs) by nia.
  destruct (i * bs <? 0) eqn:E1; [apply Z.ltb_lt in E1; lia|].
  destruct ((i + 1) * bs <? 0) eqn:E2; [apply Z.ltb_lt in E2; nia|].
  destruct (Z_le_gt_dec (len l) (i * bs)) as [Hout|Hin].
  - rewrite !drop_ge; [rewrite !take_nil; reflexivity| |]; unfold len in *; nia.
  - replace (Z.to_nat (Z.max 0 (Z.min (len l) (i * bs)))) with (Z.to_nat i * Z.to_nat bs)%nat
      by nia.
    destruct (Z_le_gt_dec ((i + 1) * bs) (len l)) as [Hfull|Hpart].
    + f_equal. nia.
    + rewrite !take_ge; [reflexivity| |]; rewrite length_drop; unfold len in *; nia.
Qed.

Lemma prompt_batches_spec {A} (prompts : list A) (bs : Z) :
  0 < bs ->
  prompt_batches prompts bs
  = inr (chunks (Z.to_nat bs) prompts (Z.to_nat ((len prompts + bs - 1) / bs))).
Proof.
  intros Hbs. unfold prompt_batches, num_batches, floordiv.
  destruct (bs =? 0) eqn:E; [apply Z.eqb_eq in E; lia|]. cbn [bindR]. f_equal.
  unfold chunks, py_range. rewrite <- list_fmap_compose.
  apply list_fmap_ext. intros _ i _. simpl.
  rewrite py_slice_chunk by lia. rewrite Nat2Z.id. reflexivity.
Qed.

Lemma num_batches_ceil (n bs : Z) :
  0 <= n -> 0 < bs ->
  let nb := (n + bs - 1) / bs in
  0 <= nb /\ (nb - 1) * bs < n <= nb * bs.
Proof.
  intros Hn Hbs nb.
  pose proof (Z.div_mod (n + bs - 1) bs ltac:(lia)) as Hdm.
  pose proof (Z.mod_pos_bound (n + bs - 1) bs Hbs) as Hmod.
  fold nb in Hdm. split; [apply Z.div_pos; lia|]. nia.
Qed.

Lemma chunks_length {A} b (l : list A) k : length (chunks b l k) = k.
Proof. unfold chunks. rewrite length_fmap, length_seq. reflexivity. Qed.

Lemma chunks_lookup {A} b (l : list A) k i :
  chunks b l k !! i = if decide (i < k)%nat then Some (take b (drop (i * b) l)) else None.
Proof.
  unfold chunks. rewrite list_lookup_fmap. destruct (decide (i < k)%nat) as [Hlt|Hge].
  - rewrite lookup_seq_lt by exact Hlt. reflexivity.
  - rewrite lookup_seq_ge by lia. reflexivity.
Qed.

Lemma chunks_concat {A} b (l : list A) k :
  (length l <= k * b)%nat -> concat (chunks b l k) = l.
Proof.
  revert l. induction k as [|k IH]; intros l Hle.
  - destruct l as [|a l]; [reflexivity|]. exfalso. cbn [length] in Hle. lia.
  - unfold chunks. cbn [seq fmap list_fmap concat]. rewrite drop_0.
    rewrite <- fmap_S_seq, <- list_fmap_compose.
    rewrite <- (take_drop b l) at 2. f_equal.
    rewrite <- (IH (drop b l)) by (rewrite length_drop; lia).
    unfold chunks. f_equal. apply list_fmap_ext. intros _ i _. simpl.
    rewrite drop_drop. repeat f_equal; lia.
Qed.

Lemma concat_lookup_chunked {A} (ls : list (list A)) (b j : nat) :
  (0 < b)%nat ->
  (forall i l, ls !! i = Some l ->
     (length l <= b)%nat /\ ((S i < length ls)%nat -> length l = b)) ->
  concat ls !! j = ls !! (j / b)%nat ≫= (fun l => l !! (j mod b)%nat).
Proof.
  intros Hb. revert j. induction ls as [|l ls IH]; intros j Hls; [reflexivity|].
  cbn [concat]. destruct (Hls 0%nat l eq_refl) as [Hle Hfull].
  destruct (decide (j < length l)%nat) as [Hlt|Hge].
  - rewrite lookup_app_l by exact Hlt.
    rewrite Nat.div_small, Nat.mod_small by lia. reflexivity.
  - rewrite lookup_app_r by lia.
    destruct ls as [|l' ls'].
    + cbn [concat]. rewrite lookup_nil.
      destruct (decide (j < b)%nat) as [Hjb|Hjb].
      * rewrite Nat.div_small, Nat.mod_small by lia. cbn.
        symmetry. apply lookup_ge_None. lia.
      * assert (1 <= j / b)%nat by (apply Nat.div_le_lower_bound; lia).
        destruct (j / b)%nat as [|q] eqn:E; [lia|]. reflexivity.
    + specialize (Hfull ltac:(simpl; lia)). rewrite Hfull.
      rewrite IH.
      * assert (Ed : (j / b = S ((j - b) / b))%nat).
        { replace j with ((j - b) + 1 * b)%nat at 1 by lia.
          rewrite Nat.div_add by lia. lia. }
        assert (Em : (j mod b = (j - b) mod b)%nat).
        { replace j with ((j - b) + 1 * b)%nat at 1 by lia.
          apply Nat.Div0.mod_add. }
        rewrite Ed, Em. reflexivity.
      * intros i x Hx. destruct (Hls (S i) x Hx) as [H1 H2].
        split; [exact H1|]. intros Hi. apply H2. simpl in *. lia.
Qed.

(** ** call_model *)

Section CallModel.

Variable w : World.
Variable round : nat.
Variable m : model.
Variable pad : Z.
Variable max_length : Z.

Local Abbreviation answers_of := (batch_answers w round m pad max_length).

Hypothesis Hpad : padding_value (tok m) = inr pad.

Lemma call_model_loop_spec batches i answers :
  Forall (fun b => b <> []) batches ->
  call_model_loop w round m max_length i batches answers
  = (inr (answers ++ concat (imap (fun k b => answers_of (i + k) b) batches)),
     (fun b => EGenerate (padded_batch pad b) max_length) <$> batches).
Proof.
  intros Hne. revert i answers.
  induction Hne as [|b rest Hb Hrest IH]; intros i answers; cbn [call_model_loop].
  - unfold ret. cbn. rewrite app_nil_r. reflexivity.
  - rewrite Hpad, bindM_lift_inr, flip_pad_flip_spec by exact Hb.
    rewrite bindM_lift_inr, bindM_emit, IH. cbn [fst snd fmap list_fmap imap concat].
    f_equal. f_equal. rewrite <- app_assoc. f_equal.
    rewrite Nat.add_0_r. f_equal. f_equal.
    apply imap_ext. intros k x _. simpl. repeat f_equal; lia.
Qed.

Hypothesis Hgen :
  forall r i (batch : torch.tensor2) ml, length (generate w r i batch ml) = length batch.

Lemma batch_answers_length i b : length (answers_of i b) = length b.
Proof.
  unfold batch_answers, padded_batch. rewrite length_fmap, Hgen, length_fmap. reflexivity.
Qed.

Lemma length_concat_imap {A B} (f : nat -> list A -> list B) (ls : list (list A)) :
  (forall i c, length (f i c) = length c) ->
  length (concat (imap f ls)) = length (concat ls).
Proof.
  intros Hf. revert f Hf. induction ls as [|c ls IH]; intros f Hf; [reflexivity|].
  cbn [imap concat]. rewrite !length_app, Hf. f_equal. apply IH.
  intros i x. apply Hf.
Qed.

Lemma chunk_length {A} (l : list A) (b k i : nat) c :
  (0 < b)%nat -> ((k - 1) * b < length l)%nat ->
  chunks b l k !! i = Some c ->
  c = take b (drop (i * b) l) /\ (i < k)%nat /\
  (0 < length c <= b)%nat /\ ((S i < k)%nat -> length c = b).
Proof.
  intros Hb Hk Hc. rewrite chunks_lookup in Hc.
  destruct (decide (i < k)%nat) as [Hi|Hi]; [|discriminate].
  injection Hc as <-. rewrite length_take, length_drop.
  split; [reflexivity|]. split; [exact Hi|]. nia.
Qed.

(** C9: for a non-empty list of prompts and a positive batch size, the
    tokenized prompts are cut, in order, into ceil(n / batch_size) consecutive
    batches of batch_size prompts (the last one possibly shorter, none empty);
    every batch is left-padded and sampled once, and the answers are the
    decoded samples batch after batch: one answer per prompt, answer [j]
    being decoded from row [j mod batch_size] of the sample for batch
    [j / batch_size], the row whose input was prompt [j]. *)
Theorem call_model_one_answer_per_prompt (prompts : list string) (batch_size : Z) :
  prompts <> [] -> 0 < batch_size ->
  let tokens := encode (tok m) <$> prompts in
  let bs := Z.to_nat batch_size in
  exists batches answers,
    prompt_batches tokens batch_size = inr batches /\
    call_model w round m prompts batch_size max_length
      = (inr answers, (fun b => EGenerate (padded_batch pad b) max_length) <$> batches) /\
    (len batches - 1) * batch_size < len prompts <= len batches * batch_size /\
    concat batches = tokens /\
    (forall i b, batches !! i = Some b ->
       (0 < length b <= bs)%nat /\ ((S i < length batches)%nat -> length b = bs)) /\
    answers = concat (imap answers_of batches) /\
    length answers = length prompts /\
    forall j p, prompts !! j = Some p ->
      exists b rows out,
        batches !! (j / bs)%nat = Some b /\
        b !! (j mod bs)%nat = Some (encode (tok m) p) /\
        flip_pad_flip b pad = inr rows /\
        rows !! (j mod bs)%nat
          = Some (left_padded pad (max_list (length <$> b)) (encode (tok m) p)) /\
        generate w round (j / bs) rows max_length !! (j mod bs)%nat = Some out /\
        answers !! j = Some (decode (tok m) out).
Proof.
  intros Hne Hbs tokens bs.
  assert (Hn : (0 < length tokens)%nat).
  { unfold tokens. rewrite length_fmap. destruct prompts; [congruence|simpl; lia]. }
  assert (Hlt : length tokens = length prompts) by (unfold tokens; apply length_fmap).
  destruct (num_batches_ceil (len tokens) batch_size ltac:(unfold len; lia) Hbs)
    as [Hnb0 Hnb].
  set (nb := (len tokens + batch_size - 1) / batch_size) in *.
  set (k := Z.to_nat nb).
  assert (Hb : (0 < bs)%nat) by (unfold bs; lia).
  assert (Hk : ((k - 1) * bs < length tokens <= k * bs)%nat).
  { unfold k, bs, len in *. nia. }
  set (batches := chunks bs tokens k).
  assert (Hchunk : forall i b, batches !! i = Some b ->
            b = take bs (drop (i * bs) tokens) /\ (i < k)%nat /\
            (0 < length b <= bs)%nat /\ ((S i < k)%nat -> length b = bs)).
  { intros i b. apply chunk_length; lia. }
  assert (Hnonempty : Forall (fun b => b <> []) batches).
  { apply Forall_forall. intros b Hin. apply list_elem_of_lookup in Hin as [i Hi].
    destruct (Hchunk i b Hi) as (_ & _ & Hl & _). destruct b; [simpl in Hl; lia|discriminate]. }
  assert (Hrun : call_model w round m prompts batch_size max_length
                 = (inr (concat (imap answers_of batches)),
                    (fun b => EGenerate (padded_batch pad b) max_length) <$> batches)).
  { unfold call_model. fold tokens. rewrite prompt_batches_spec by exact Hbs.
    rewrite bindM_lift_inr. fold nb bs k batches.
    rewrite call_model_loop_spec by exact Hnonempty. reflexivity. }
  exists batches, (concat (imap answers_of batches)).
  split; [apply prompt_batches_spec; exact Hbs|].
  split; [exact Hrun|].
  assert (Hlb : length batches = k) by apply chunks_length.
  split; [unfold len in *; rewrite Hlb, <- Hlt; unfold k; lia|].
  split; [apply chunks_concat; lia|].
  split.
  { intros i b Hi. destruct (Hchunk i b Hi) as (_ & _ & Hl & Hfull).
    split; [exact Hl|]. rewrite Hlb. exact Hfull. }
  split; [reflexivity|].
  split.
  { rewrite length_concat_imap by apply batch_answers_length.
    unfold batches. rewrite chunks_concat by lia. exact Hlt. }
  intros j p Hj.
  assert (Hjn : (j < length tokens)%nat) by (rewrite Hlt; eapply lookup_lt_Some; exact Hj).
  assert (Hdm : (j = (j / bs) * bs + j mod bs)%nat)
    by (rewrite (Nat.div_mod_eq j bs) at 1; lia).
  assert (Hr : (j mod bs < bs)%nat) by (apply Nat.mod_upper_bound; lia).
  assert (Hi : (j / bs < k)%nat) by (apply Nat.Div0.div_lt_upper_bound; lia).
  set (i := (j / bs)%nat) in *. set (r := (j mod bs)%nat) in *.
  set (b := take bs (drop (i * bs) tokens)).
  assert (Hbi : batches !! i = Some b).
  { unfold batches. rewrite chunks_lookup. destruct (decide (i < k)%nat); [reflexivity|lia]. }
  assert (Hbr : b !! r = Some (encode (tok m) p)).
  { unfold b. rewrite lookup_take_lt by exact Hr. rewrite lookup_drop, <- Hdm.
    unfold tokens. rewrite list_lookup_fmap, Hj. reflexivity. }
  assert (Hbne : b <> []) by (intros E; rewrite E in Hbr; discriminate).
  assert (Hrl : (r < length b)%nat) by (eapply lookup_lt_Some; exact Hbr).
  set (rows := padded_batch pad b).
  assert (Hout : is_Some (generate w round i rows max_length !! r)).
  { apply lookup_lt_is_Some. rewrite Hgen. unfold rows, padded_batch.
    rewrite length_fmap. exact Hrl. }
  destruct Hout as [out Hout].
  exists b, rows, out.
  split; [exact Hbi|]. split; [exact Hbr|].
  split; [apply flip_pad_flip_spec; exact Hbne|].
  split; [unfold rows, padded_batch; rewrite list_lookup_fmap, Hbr; reflexivity|].
  split; [exact Hout|].
  assert (Hans : forall i' o, imap answers_of batches !! i' = Some o ->
            (length o <= bs)%nat /\
            ((S i' < length (imap answers_of batches))%nat -> length o = bs)).
  { intros i' o Ho. rewrite list_lookup_imap in Ho.
    destruct (batches !! i') as [c|] eqn:Ec; [|discriminate].
    injection Ho as <-. rewrite batch_answers_length, length_imap, Hlb.
    destruct (Hchunk i' c Ec) as (_ & _ & Hl & Hfull). split; [lia|exact Hfull]. }
  rewrite (concat_lookup_chunked _ bs j Hb Hans).
  fold i r. rewrite list_lookup_imap, Hbi. cbn.
  unfold batch_answers. fold rows. rewrite list_lookup_fmap, Hout. reflexivity.
Qed.

End CallModel.

(** ** Calls with at most one batch *)

Lemma call_model_no_batches w round m prompts batch_size max_length :
  prompt_batches (encode (tok m) <$> prompts) batch_size = inr [] ->
  call_model w round m prompts batch_size max_length = (inr [], []).
Proof. intros H. unfold call_model. rewrite H, bindM_lift_inr. reflexivity. Qed.

Lemma prompt_batches_nil {A} (batch_size : Z) :
  0 < batch_size -> prompt_batches (@nil A) batch_size = inr [].
Proof.
  intros Hbs. rewrite prompt_batches_spec by exact Hbs.
  cbn [len length]. rewrite Z.add_0_l, Z.div_small by lia. reflexivity.
Qed.

Lemma call_model_single_batch w round m pad prompts batch_size max_length :
  padding_value (tok m) = inr pad ->
  0 < len prompts <= batch_size ->
  let tokens := encode (tok m) <$> prompts in
  call_model w round m prompts batch_size max_length
  = (inr (batch_answers w round m pad max_length 0 tokens),
     [EGenerate (padded_batch pad tokens) max_length]).
Proof.
  intros Hpad Hn tokens. unfold call_model. fold tokens.
  assert (Hlen : len tokens = len prompts)
    by (unfold len, tokens; rewrite length_fmap; reflexivity).
  rewrite prompt_batches_spec by lia. rewrite bindM_lift_inr.
  destruct (num_batches_ceil (len tokens) batch_size) as [Hnb0 Hnb]; [lia|lia|].
  assert (Hone : (len tokens + batch_size - 1) / batch_size = 1) by nia.
  rewrite Hone. change (Z.to_nat 1) with 1%nat.
  unfold chunks. cbn [seq fmap list_fmap]. rewrite drop_0.
  rewrite take_ge by (unfold len in *; lia).
  rewrite (call_model_loop_spec w round m pad max_length Hpad).
  - cbn [imap concat fmap list_fmap app]. rewrite app_nil_r. reflexivity.
  - constructor; [|constructor]. intros E. rewrite E in Hlen. unfold len in *. simpl in *. lia.
Qed.

(** ** on_evaluate *)

Lemma on_evaluate_run w round m (ds : sft_dataset) :
  let sampled := take 16 (prompts ds) in
  let sample := call_model w round m sampled 16 500 in
  (on_evaluate w round m ds).2
  = sample.2 ++
    match sample.1 with
    | inr responses =>
        if rank w =? 0
        then [EWandbLog "generations"
                {| columns := ["prompts"; "responses"];
                   data := zip_with (fun prompt response => [prompt; response])
                             sampled responses |}]
        else []
    | inl _ => []
    end.
Proof.
  intros sampled sample. unfold on_evaluate. rewrite bindM_trace.
  rewrite py_slice_prefix by lia. change (Z.to_nat 16) with 16%nat.
  fold sampled. fold sample. f_equal.
  destruct sample.1 as [e|responses]; [reflexivity|].
  destruct (rank w =? 0); reflexivity.
Qed.

(** C10: at every evaluation, whatever the round, [on_evaluate] takes the
    first min(16, size) prompts of the eval dataset and passes them to
    [call_model] with batch size 16 and max_length 500.  When that fails the
    evaluation fails with the same error; when it returns responses, the
    evaluation succeeds and, on rank 0, logs after the sampling one table,
    under the key "generations", whose row [i] pairs the [i]-th of these
    prompts with the [i]-th response: at most 16 rows.  When the tokenizer
    yields a padding value and the model returns one row per row of its
    batch, the sampling is one call of the model on the left-padded prompts
    and the table has exactly min(16, size) rows, row [i] holding the [i]-th
    prompt of the dataset and the decoded [i]-th row of the sample.  Nothing
    else is ever logged. *)
Theorem on_evaluate_logs_first_16 w round m (ds : sft_dataset) :
  let n := length (prompts ds) in
  let sampled := take 16 (prompts ds) in
  let sample := call_model w round m sampled 16 500 in
  let table := fun responses =>
    {| columns := ["prompts"; "responses"];
       data := zip_with (fun prompt response => [prompt; response]) sampled responses |} in
  (py_slice (prompts ds) 0 16 = sampled /\
   length sampled = Nat.min 16 n /\
   forall i, (i < Nat.min 16 n)%nat -> sampled !! i = prompts ds !! i) /\
  on_evaluate w round m ds
  = match sample.1 with
    | inl e => (inl e, sample.2)
    | inr responses =>
        (inr tt,
         sample.2 ++
         if rank w =? 0 then [EWandbLog "generations" (table responses)] else [])
    end /\
  (forall pad,
     padding_value (tok m) = inr pad ->
     (forall batch, length (generate w round 0 batch 500) = length batch) ->
     let batch := padded_batch pad (encode (tok m) <$> sampled) in
     let output := generate w round 0 batch 500 in
     let responses := decode (tok m) <$> output in
     on_evaluate w round m ds
     = (inr tt,
        (if decide (n = 0%nat) then [] else [EGenerate batch 500]) ++
        if rank w =? 0 then [EWandbLog "generations" (table responses)] else []) /\
     length (data (table responses)) = Nat.min 16 n /\
     forall i, (i < Nat.min 16 n)%nat ->
       exists prompt row,
         prompts ds !! i = Some prompt /\ output !! i = Some row /\
         data (table responses) !! i = Some [prompt; decode (tok m) row]) /\
  forall key t, EWandbLog key t ∈ (on_evaluate w round m ds).2 ->
    rank w = 0 /\ key = "generations" /\ columns t = ["prompts"; "responses"] /\
    exists responses,
      sample.1 = inr responses /\ t = table responses /\
      (length (data t) <= 16)%nat /\
      (length responses = length sampled ->
       length (data t) = Nat.min 16 n) /\
      forall i row, data t !! i = Some row ->
        exists prompt response,
          prompts ds !! i = Some prompt /\ sampled !! i = Some prompt /\
          responses !! i = Some response /\ row = [prompt; response].
Proof.
  intros n sampled sample table.
  assert (Hlen : length sampled = Nat.min 16 n)
    by (unfold sampled; apply length_take).
  assert (Hslice : py_slice (prompts ds) 0 16 = sampled)
    by (apply (py_slice_prefix (prompts ds) 16); lia).
  assert (Hrun : on_evaluate w round m ds
                 = match sample.1 with
                   | inl e => (inl e, sample.2)
                   | inr responses =>
                       (inr tt,
                        sample.2 ++
                        if rank w =? 0
                        then [EWandbLog "generations" (table responses)] else [])
                   end).
  { unfold on_evaluate. rewrite Hslice. fold sample. fold table.
    destruct sample as [[e|responses] t]; cbn [bindM fst snd]; [reflexivity|].
    destruct (rank w =? 0); cbn; [reflexivity|rewrite app_nil_r; reflexivity]. }
  split; [|split; [exact Hrun|split]].
  - split; [exact Hslice|]. split; [exact Hlen|].
    intros i Hi. unfold sampled. apply lookup_take_lt. lia.
  - intros pad Hpad Hgen batch output responses.
    assert (Hout : length output = Nat.min 16 n).
    { unfold output. rewrite Hgen. unfold batch, padded_batch.
      rewrite !length_fmap. exact Hlen. }
    assert (Hsample : sample = (inr responses,
                                if decide (n = 0%nat) then [] else [EGenerate batch 500])).
    { destruct (decide (n = 0%nat)) as [Hn|Hn].
      - assert (Hs : sampled = []) by (apply nil_length_inv; lia).
        assert (Hr : responses = []).
        { apply nil_length_inv. unfold responses. rewrite length_fmap. lia. }
        rewrite Hr. unfold sample. rewrite Hs.
        apply call_model_no_batches, prompt_batches_nil. lia.
      - unfold sample.
        rewrite (call_model_single_batch w round m pad sampled 16 500 Hpad)
          by (unfold len; lia).
        reflexivity. }
    split; [rewrite Hrun, Hsample; reflexivity|].
    assert (Hrows : length (data (table responses)) = Nat.min 16 n).
    { cbn [data table]. rewrite length_zip_with. unfold responses.
      rewrite length_fmap. lia. }
    split; [exact Hrows|].
    intros i Hi.
    destruct (lookup_lt_is_Some_2 sampled i) as [prompt Hp]; [lia|].
    destruct (lookup_lt_is_Some_2 output i) as [row Hr]; [lia|].
    exists prompt, row.
    split; [unfold sampled in Hp; apply lookup_take_Some in Hp as [Hp _]; exact Hp|].
    split; [exact Hr|]. cbn [data table].
    apply lookup_zip_with_Some. exists prompt, (decode (tok m) row).
    split; [reflexivity|]. split; [exact Hp|].
    unfold responses. rewrite list_lookup_fmap, Hr. reflexivity.
  - intros key t Hin. rewrite Hrun in Hin.
    assert (He : forall k' t', EWandbLog k' t' ∉ sample.2).
    { intros k' t' Hs.
      assert (He : emits (fun e => forall k t, e <> EWandbLog k t) sample)
        by (apply call_model_emits; intros; discriminate).
      exact (proj1 (Forall_forall _ _) He _ Hs k' t' eq_refl). }
    destruct sample.1 as [e|responses]; cbn [snd] in Hin;
      [exfalso; exact (He _ _ Hin)|].
    apply elem_of_app in Hin as [Hin|Hin]; [exfalso; exact (He _ _ Hin)|].
    destruct (rank w =? 0) eqn:Er; [|apply elem_of_nil in Hin; contradiction].
    apply list_elem_of_singleton in Hin. injection Hin as -> ->.
    split; [apply Z.eqb_eq; exact Er|]. split; [reflexivity|]. split; [reflexivity|].
    exists responses. split; [reflexivity|]. split; [reflexivity|]. cbn [data table].
    split; [rewrite length_zip_with; lia|].
    split; [intros Hr; rewrite length_zip_with; lia|].
    intros i row Hrow. apply lookup_zip_with_Some in Hrow as (p & r & -> & Hp & Hr).
    exists p, r. split; [|auto].
    unfold sampled in Hp. apply lookup_take_Some in Hp as [Hp _]. exact Hp.
Qed.

(** ** The properties on the concrete run *)

Lemma split_disjoint_and_covering_witness :
  1 ∉ (fun i => 2 + i) <$> py_range 118.
Proof.
  pose proof (split_disjoint_and_covering demo.dataset) as H.
  assert (E : split_indices (len demo.dataset)
              = inr (py_range 2, (fun i => 2 + i) <$> py_range 118))
    by (vm_compute; reflexivity).
  rewrite E in H. destruct H as [Hdisjoint _].
  apply (Hdisjoint 1). apply elem_of_py_range. lia.
Defined.

(** C2 on the concrete run, with the trainer keys "masked" and "lora". *)
Lemma trainer_value_validated_witness :
  (exists a b, ETrainer a b ∈ (train demo.world demo.config).2 /\
               kind a = MaskedSFTDataset /\ kind b = MaskedSFTDataset) /\
  (train demo.world (<["trainer" := VStr "lora"]> demo.config)).1
  = inl (ValueError "{} is unsupported train type!" [VStr "lora"]).
Proof.
  split.
  - apply (trainer_value_validated demo.world demo.config
             (VStr "gpt2") (VStr "gpt2") (VStr "data") (VStr "masked")
             (<["deepspeed" := VStr "ds.json"]> demo.train_args));
      reflexivity.
  - apply (trainer_value_validated demo.world (<["trainer" := VStr "lora"]> demo.config)
             (VStr "gpt2") (VStr "gpt2") (VStr "data") (VStr "lora")
             (<["deepspeed" := VStr "ds.json"]> demo.train_args));
      first [reflexivity | discriminate].
Defined.

(** C3, amended, on a byte-level tokenizer whose pad token is "!", with the
    id 33: a batch of three prompts of lengths 3, 1 and 2, the second of them
    padded with two copies of 33. *)
Lemma call_model_left_pads_witness :
  let m := {| weights := VStr "gpt2";
              tok := {| encode := demo.byte_encode; decode := demo.byte_decode;
                        eos_token := "#"; pad_token := Some "!";
                        token_to_id := demo.byte_id |} |} in
  exists rows row tail,
    (call_model_loop demo.world 0 m 500 0 [[[1; 2; 3]; [4]; [5; 6]]] []).2
      = EGenerate rows 500 :: tail /\
    rows !! 1%nat = Some row /\ length row = 3%nat /\ row = [33; 33; 4] /\
    pad_token_id (tok m) = Some 33.
Proof.
  intros m.
  destruct (call_model_left_pads demo.world 0 m 500 0
              [1; 2; 3] [[4]; [5; 6]] [] [] "!" 33 [] eq_refl eq_refl)
    as (rows & tail & _ & _ & Htrace & _ & _ & Hrow & Hid).
  destruct (Hrow 1%nat [4] eq_refl) as (_ & row & Hi & Hl & Hr).
  exists rows, row, tail.
  split; [exact Htrace|]. split; [exact Hi|]. split; [exact Hl|]. split; [exact Hr|].
  apply Hid. reflexivity.
Defined.

(** The padding value is not the pad token id for a tokenizer that starts
    every encoding with a begin-of-sequence token: the prompt "c", encoded
    as [1; 99], is padded to [1; 1; 99], with the begin-of-sequence id 1 and
    not with the pad token id 35. *)
Lemma flip_pad_flip_not_pad_token_id :
  (call_model demo.world 0 demo.bos_sampler ["ab"; "c"] 16 500).2
    = [EGenerate [[1; 97; 98]; [1; 1; 99]] 500] /\
  encode (tok demo.bos_sampler) "c" = [1; 99] /\
  pad_token_id (tok demo.bos_sampler) = Some 35 /\
  forall k, [1; 1; 99] <> replicate k 35 ++ [1; 99].
Proof.
  split; [vm_compute; reflexivity|]. split; [reflexivity|]. split; [reflexivity|].
  intros [|[|k]]; discriminate.
Qed.

(** C4 on a batch of two examples of length 2. *)
Lemma data_collator_stacks_witness :
  exists (m : gmap string (list (list Z))) input_ids attention_mask labels,
    data_collator demo.examples = inr m /\
    dom m = {["input_ids"; "attention_mask"; "labels"]} /\
    m !! "input_ids" = Some input_ids /\
    m !! "attention_mask" = Some attention_mask /\
    m !! "labels" = Some labels /\
    torch.shape input_ids = (2%nat, 2%nat) /\
    torch.shape attention_mask = (2%nat, 2%nat) /\
    torch.shape labels = (2%nat, 2%nat) /\
    forall i g, demo.examples !! i = Some g ->
      input_ids !! i = Some g.1.1 /\
      attention_mask !! i = Some g.1.2 /\
      labels !! i = Some g.2.
Proof.
  apply (data_collator_stacks ([1; 2], [1; 1], [3; 4]) [([5; 6], [1; 0], [7; 8])] 2).
  intros g Hg. apply elem_of_cons in Hg as [->|Hg]; [repeat split; reflexivity|].
  apply list_elem_of_singleton in Hg as ->. repeat split; reflexivity.
Defined.

(** C6, amended, on the concrete run. *)
Lemma train_args_forwarded_with_deepspeed_witness :
  ETrainingArguments (<["deepspeed" := VStr "ds.json"]> demo.train_args)
    ∈ (main demo.world demo.args).2 /\
  forall kw, ETrainingArguments kw ∈ (main demo.world demo.args).2 ->
             kw = <["deepspeed" := VStr "ds.json"]> demo.train_args.
Proof.
  destruct (train_args_forwarded_with_deepspeed demo.world demo.args demo.yaml
              demo.train_args eq_refl eq_refl) as (Hall & Hex & _ & _).
  split; [apply (Hex (VStr "gpt2")); reflexivity|exact Hall].
Defined.

(** The configuration file of the concrete run has no "deepspeed" entry under
    [train_args], yet the argument object is constructed with one: the value
    of --ds_config_path. *)
Lemma train_args_not_verbatim :
  load_yaml demo.world (of_option_str (config_path demo.args)) = VDict demo.yaml /\
  demo.yaml !! "train_args" = Some (VDict demo.train_args) /\
  exists kw, ETrainingArguments kw ∈ (main demo.world demo.args).2 /\
             kw !! "deepspeed" = Some (VStr "ds.json") /\
             demo.train_args !! "deepspeed" = None /\
             kw <> demo.train_args.
Proof.
  split; [reflexivity|]. split; [reflexivity|].
  exists (<["deepspeed" := VStr "ds.json"]> demo.train_args).
  split.
  - rewrite (main_calls_train demo.world demo.args demo.yaml demo.train_args eq_refl eq_refl).
    apply (train_constructs_arguments _ _ (VStr "gpt2")); reflexivity.
  - split; [reflexivity|]. split; [reflexivity|].
    intros E. apply (f_equal (fun d => d !! "deepspeed")) in E.
    vm_compute in E. discriminate.
Qed.

(** C7 on the concrete run, whose rank is 0 and whose sixth event is the
    tracking initialisation. *)
Lemma tracking_only_on_rank_0_witness :
  exists e, e ∈ (train demo.world demo.config).2 /\ tracking e /\ rank demo.world = 0.
Proof.
  assert (H : exists e, (train demo.world demo.config).2 !! 5%nat = Some e /\ tracking e).
  { vm_compute. eexists. split; [reflexivity|exact I]. }
  destruct H as (e & He & Ht). exists e.
  assert (Hin : e ∈ (train demo.world demo.config).2)
    by (apply list_elem_of_lookup; exists 5%nat; exact He).
  split; [exact Hin|]. split; [exact Ht|].
  exact (proj1 (tracking_only_on_rank_0 demo.world) demo.config e Hin Ht).
Defined.

(** C8 on the concrete run: thirteen events, the last two being the return of
    the training loop and the save. *)
Lemma save_only_after_training_witness :
  (train demo.world demo.config).1 = inr tt /\
  (train demo.world demo.config).2 !! 11%nat = Some ETrainEnd /\
  (train demo.world demo.config).2 !! 12%nat = Some (ESavePretrained (VStr "out")).
Proof.
  split; [|split; vm_compute; reflexivity].
  apply (save_only_after_training demo.world demo.config
           (take 12 (train demo.world demo.config).2) (VStr "out") []).
  vm_compute. reflexivity.
Defined.

(** C9 on three prompts with batch size 2: two batches, three answers. *)
Lemma call_model_one_answer_per_prompt_witness :
  exists batches answers,
    prompt_batches (encode (tok demo.sampler) <$> ["ab"; "c"; "def"]) 2 = inr batches /\
    (call_model demo.world 0 demo.sampler ["ab"; "c"; "def"] 2 500).1 = inr answers /\
    length batches = 2%nat /\ length answers = 3%nat.
Proof.
  destruct (call_model_one_answer_per_prompt demo.world 0 demo.sampler 35 500
              eq_refl (fun r i batch ml => length_fmap _ batch) ["ab"; "c"; "def"] 2
              ltac:(discriminate) ltac:(lia))
    as (batches & answers & Hb & Hrun & Hceil & _ & _ & _ & Hlen & _).
  exists batches, answers. split; [exact Hb|].
  split; [rewrite Hrun; reflexivity|]. split; [|exact Hlen].
  unfold len in Hceil. cbn [length] in Hceil. lia.
Defined.

(** C10 on the eval shard of the concrete run, in evaluation round 3 on rank
    0: one call of the model on the two prompts, then the table of the two
    pairs. *)
Lemma on_evaluate_logs_first_16_witness :
  let dataset := make_dataset demo.world MaskedSFTDataset (take 2 demo.dataset) in
  on_evaluate demo.world 3 demo.sampler dataset
  = (inr tt,
     [EGenerate [[97; 98]; [35; 99]] 500;
      EWandbLog "generations"
        {| columns := ["prompts"; "responses"];
           data := [["ab"; "ab!"]; ["c"; "#c!"]] |}]) /\
  prompts dataset = ["ab"; "c"].
Proof.
  intros dataset.
  destruct (on_evaluate_logs_first_16 demo.world 3 demo.sampler dataset)
    as (_ & _ & Hsampling & _).
  destruct (Hsampling 35 eq_refl) as (Hrun & _).
  - intros batch. apply length_fmap.
  - split; [exact Hrun|reflexivity].
Defined.

(** * Further properties of the code *)

(** ** The split, for every dataset size *)

Lemma shiftl_scaled_le m e s :
  0 <= m -> 0 <= s -> 0 <= e + s -> Z.shiftl m e * 2 ^ s <= m * 2 ^ (e + s).
Proof.
  intros Hm Hs Hes.
  assert (HS : 0 < 2 ^ s) by (apply Z.pow_pos_nonneg; lia).
  destruct (Z_le_gt_dec 0 e) as [He|He].
  - rewrite Z.shiftl_mul_pow2 by assumption. rewrite Z.pow_add_r by lia. lia.
  - rewrite shiftl_neg_div by lia.
    assert (HE : 0 < 2 ^ (- e)) by (apply Z.pow_pos_nonneg; lia).
    assert (HX : 0 < 2 ^ (e + s)) by (apply Z.pow_pos_nonneg; lia).
    assert (E : 2 ^ s = 2 ^ (e + s) * 2 ^ (- e))
      by (rewrite <- Z.pow_add_r by lia; f_equal; lia).
    rewrite E.
    pose proof (Z.mul_div_le m (2 ^ (- e)) HE). nia.
Qed.

(** Beyond 2^53 the two roundings cost at most a factor 1.001 each. *)
Lemma eval_size_large_share N k :
  2 ^ 53 <= N -> eval_size N = inr k -> 1000 * k <= 21 * N.
Proof.
  intros HN. unfold eval_size, bindR, float_mul, float_of_int.
  destruct N as [|p|p]; try lia. unfold binary_normalize.
  set (N := Z.pos p) in *.
  assert (Hd : prec < Zdigits2 N) by (apply Zdigits2_ge_pow2; unfold prec; lia).
  rewrite binary_round_large by assumption. fold N.
  destruct (binary_round_aux_value N 0) as (mN & c1 & Hr & HmN & Hc1 & _ & Hhi1 & _ & Hnorm).
  { lia. } { unfold prec, emax in *. lia. }
  specialize (Hnorm ltac:(lia)).
  rewrite Z.max_r in Hc1, Hhi1 by lia.
  set (sh1 := Zdigits2 N - prec) in *.
  assert (Hsh1 : 2 ^ sh1 * 2 ^ 52 <= N).
  { pose proof (Zdigits2_bounds N ltac:(lia)) as [Hlo _].
    rewrite <- Z.pow_add_r by (unfold sh1, prec in *; lia).
    replace (sh1 + 52) with (Zdigits2 N - 1) by (unfold sh1, prec; lia). exact Hlo. }
  rewrite Hr. unfold finite_or_inf. rewrite Z.add_0_l.
  destruct (Z.leb_spec c1 (emax - prec)) as [Hfit|Hov]; [|discriminate].
  destruct (SFmul_0_02 (Z.to_pos mN) c1)
    as (mF & c2 & sh2 & Hr2 & HmF & Hsh2 & Hc2 & _ & Hhi2).
  { rewrite Z2Pos.id by lia. exact Hnorm. } { unfold sh1, prec in *; lia. }
  rewrite Z2Pos.id in Hhi2 by lia.
  rewrite Hr2. unfold int_of_float, cond_Zopp. rewrite Z2Pos.id by lia.
  intros [= <-].
  assert (Hc1' : 0 < c1) by (unfold sh1, prec in *; lia).
  pose proof (shiftl_scaled_le mF (c1 - 58 + c2) 58 ltac:(lia) ltac:(lia) ltac:(lia)) as Hs.
  replace (c1 - 58 + c2 + 58) with (c2 + c1) in Hs by lia.
  rewrite Z.pow_add_r in Hs by lia.
  set (k := Z.shiftl mF (c1 - 58 + c2)) in *.
  assert (HS : 2 ^ sh2 <= 2 ^ 53) by (apply Z.pow_le_mono_r; lia).
  assert (HS1 : 0 < 2 ^ sh1) by (apply Z.pow_pos_nonneg; unfold sh1, prec in *; lia).
  assert (HC1 : 0 < 2 ^ c1) by (apply Z.pow_pos_nonneg; lia).
  assert (HC2 : 0 < 2 ^ c2) by (apply Z.pow_pos_nonneg; lia).
  assert (H52 : 2 ^ 52 <= mN) by (unfold prec in *; simpl in Hnorm; lia).
  assert (HA : 1000 * (mF * 2 ^ c2) <= 1001 * (mN * Z.pos m_0_02))
    by (unfold m_0_02 in *; nia).
  assert (HB : 1000 * (mN * 2 ^ c1) <= 1001 * N) by lia.
  assert (HAB : 1000000 * (mF * 2 ^ c2 * 2 ^ c1) <= 1002001 * Z.pos m_0_02 * N).
  { assert (1000 * (mF * 2 ^ c2) * 2 ^ c1 <= 1001 * (mN * Z.pos m_0_02) * 2 ^ c1)
      by (apply Z.mul_le_mono_nonneg_r; lia).
    unfold m_0_02 in *. nia. }
  unfold m_0_02 in *. lia.
Qed.

Lemma eval_size_share N k : 0 <= N -> eval_size N = inr k -> 0 <= k /\ 1000 * k <= 21 * N.
Proof.
  intros H0 Hk. destruct (Z_lt_le_dec N (2 ^ 53)) as [Hs|Hl].
  - rewrite eval_size_exact in Hk by lia. injection Hk as <-.
    pose proof (Z.div_mod N 50 ltac:(lia)).
    pose proof (Z.mod_pos_bound N 50 ltac:(lia)). lia.
  - split; [|apply eval_size_large_share; assumption].
    pose proof (eval_size_total N H0) as Ht. rewrite Hk in Ht. lia.
Qed.

Lemma split_dataset_inv {A} (data eval_data train_data : list A) :
  split_dataset data = inr (eval_data, train_data) ->
  exists k, eval_size (len data) = inr k /\ 0 <= k <= len data /\
            eval_data = take (Z.to_nat k) data /\ train_data = drop (Z.to_nat k) data.
Proof.
  intros Hs.
  pose proof (eval_size_total (len data) ltac:(unfold len; lia)) as Ht.
  destruct (eval_size (len data)) as [e|k] eqn:Ek.
  - unfold split_dataset, split_indices in Hs. rewrite Ek in Hs. discriminate.
  - destruct (split_dataset_of_eval_size data k Ek Ht) as [_ Hs'].
    rewrite Hs' in Hs. injection Hs as <- <-. exists k. auto.
Qed.

(** X1: whatever the size of the dataset, a split that succeeds loses,
    duplicates and reorders nothing: the eval shard is a prefix of the
    dataset, the train shard is the rest, and eval followed by train is the
    dataset itself. *)
Theorem split_is_a_cut {A} (data eval_data train_data : list A) :
  split_dataset data = inr (eval_data, train_data) ->
  eval_data ++ train_data = data /\
  eval_data = take (length eval_data) data /\
  train_data = drop (length eval_data) data.
Proof.
  intros Hs. destruct (split_dataset_inv _ _ _ Hs) as (k & _ & Hk & -> & ->).
  split; [apply take_drop|].
  assert (E : length (take (Z.to_nat k) data) = Z.to_nat k)
    by (rewrite length_take; unfold len in Hk; lia).
  rewrite E. auto.
Qed.

(** X1 on the 120 rows of the concrete run. *)
Lemma split_is_a_cut_witness :
  replicate 2 VNone ++ replicate 118 VNone = replicate 120 VNone.
Proof.
  apply (split_is_a_cut (replicate 120 VNone) (replicate 2 VNone) (replicate 118 VNone)).
  vm_compute. reflexivity.
Defined.

(** X2: a dataset with fewer than 50 rows gets an empty eval shard and is
    used whole for training; from 50 rows on (below the first size at which
    rounding matters) the eval shard is not empty. *)
Theorem eval_shard_empty_below_50 {A} (data : list A) :
  len data < 2 ^ 53 + 7 ->
  exists eval_data train_data,
    split_dataset data = inr (eval_data, train_data) /\
    (eval_data = [] <-> len data < 50) /\
    (len data < 50 -> train_data = data).
Proof.
  intros Hlt.
  assert (H0 : 0 <= len data) by (unfold len; lia).
  pose proof (eval_size_below_first_failure (len data) ltac:(lia)) as Hk.
  pose proof (Z.div_mod (len data) 50 ltac:(lia)) as Hdm.
  pose proof (Z.mod_pos_bound (len data) 50 ltac:(lia)) as Hmod.
  destruct (split_dataset_of_eval_size data _ Hk ltac:(lia)) as [_ Hs].
  eexists _, _. split; [exact Hs|]. split; [split|].
  - intros E. apply (f_equal length) in E. rewrite length_take in E.
    simpl in E. unfold len in *. lia.
  - intros Hsmall. replace (len data / 50) with 0 by lia. reflexivity.
  - intros Hsmall. replace (len data / 50) with 0 by lia. reflexivity.
Qed.

(** X2 on a dataset of 49 rows. *)
Lemma eval_shard_empty_below_50_witness :
  exists eval_data train_data,
    split_dataset (replicate 49 VNone) = inr (eval_data, train_data) /\
    (eval_data = [] <-> len (replicate 49 VNone) < 50) /\
    (len (replicate 49 VNone) < 50 -> train_data = replicate 49 VNone).
Proof.
  apply (eval_shard_empty_below_50 (replicate 49 VNone)). vm_compute. reflexivity.
Defined.

(** X3: for every dataset, of any size, the eval shard holds at most 2.1% of
    the rows, so a non-empty dataset always leaves a non-empty train shard. *)
Theorem eval_shard_share {A} (data eval_data train_data : list A) :
  split_dataset data = inr (eval_data, train_data) ->
  1000 * len eval_data <= 21 * len data /\
  (data <> [] -> train_data <> []).
Proof.
  intros Hs. destruct (split_dataset_inv _ _ _ Hs) as (k & Ek & Hk & -> & ->).
  destruct (eval_size_share (len data) k ltac:(unfold len; lia) Ek) as [Hk0 Hshare].
  assert (E : len (take (Z.to_nat k) data) = k)
    by (unfold len in *; rewrite length_take; lia).
  split; [rewrite E; exact Hshare|].
  intros Hne Hd. apply (f_equal length) in Hd. rewrite length_drop in Hd.
  simpl in Hd. destruct data; [congruence|]. unfold len in *. simpl length in *. lia.
Qed.

(** X3 on the 120 rows of the concrete run. *)
Lemma eval_shard_share_witness :
  1000 * len (replicate 2 VNone) <= 21 * len (replicate 120 VNone) /\
  (replicate 120 VNone <> [] -> replicate 118 VNone <> []).
Proof.
  apply (eval_shard_share (replicate 120 VNone) (replicate 2 VNone) (replicate 118 VNone)).
  vm_compute. reflexivity.
Defined.

(** ** The collation function on arbitrary batches *)

Lemma stack_inr_iff (ts : list (list Z)) :
  (exists r, torch.stack ts = inr r) <->
  ts <> [] /\ exists L, Forall (fun t => length t = L) ts.
Proof.
  split.
  - intros [r Hr]. unfold torch.stack in Hr. destruct ts as [|t ts']; [discriminate|].
    destruct (forallb _ (t :: ts')) eqn:E; [|discriminate].
    split; [discriminate|]. exists (length t). apply Forall_forall. intros u Hu.
    apply list_elem_of_In in Hu. apply (proj1 (forallb_forall _ _) E) in Hu.
    apply Nat.eqb_eq in Hu. exact Hu.
  - intros [Hne [L HL]]. exists ts. apply (stack_spec ts L); assumption.
Qed.

Lemma stack_inl (ts : list (list Z)) e :
  torch.stack ts = inl e -> exists msg, e = RuntimeError msg.
Proof.
  unfold torch.stack. destruct ts as [|t ts']; [intros [= <-]; eauto|].
  destruct (forallb _ (t :: ts')); [discriminate|]. intros [= <-]. eauto.
Qed.

(** X4: the collation function does no padding of its own.  It succeeds
    exactly on the non-empty batches in which all input-id sequences have one
    length, all attention masks one length and all label sequences one length
    (the three lengths need not agree); on every other batch it raises a
    RuntimeError. *)
Theorem data_collator_succeeds_iff (batch : list (list Z * list Z * list Z)) :
  ((exists m, data_collator batch = inr m) <->
   batch <> [] /\
   exists L1 L2 L3,
     forall g, g ∈ batch -> length g.1.1 = L1 /\ length g.1.2 = L2 /\ length g.2 = L3) /\
  (forall e, data_collator batch = inl e -> exists msg, e = RuntimeError msg).
Proof.
  assert (Hfm : forall (h : list Z * list Z * list Z -> list Z),
             h <$> batch <> [] <-> batch <> []).
  { intros h. destruct batch as [|g batch'].
    - split; intros H E; apply H; reflexivity.
    - split; intros _; [discriminate|rewrite fmap_cons; discriminate]. }
  split; [split|].
  - intros [m Hm]. unfold data_collator in Hm.
    destruct (torch.stack ((fun f => f.1.1) <$> batch)) as [e1|r1] eqn:E1; [discriminate|].
    destruct (torch.stack ((fun f => f.1.2) <$> batch)) as [e2|r2] eqn:E2; [discriminate|].
    destruct (torch.stack ((fun f => f.2) <$> batch)) as [e3|r3] eqn:E3; [discriminate|].
    destruct (proj1 (stack_inr_iff _) (ex_intro _ _ E1)) as [Hne [L1 H1]].
    destruct (proj1 (stack_inr_iff _) (ex_intro _ _ E2)) as [_ [L2 H2]].
    destruct (proj1 (stack_inr_iff _) (ex_intro _ _ E3)) as [_ [L3 H3]].
    split; [exact (proj1 (Hfm _) Hne)|]. exists L1, L2, L3. intros g Hg.
    apply Forall_fmap in H1, H2, H3.
    split; [|split].
    + exact (proj1 (Forall_forall _ _) H1 g Hg).
    + exact (proj1 (Forall_forall _ _) H2 g Hg).
    + exact (proj1 (Forall_forall _ _) H3 g Hg).
  - intros [Hne (L1 & L2 & L3 & HL)]. unfold data_collator.
    rewrite (stack_spec _ L1);
      [|apply Hfm; exact Hne|apply Forall_fmap, Forall_forall; intros g Hg; apply (HL g Hg)].
    cbn [bindR].
    rewrite (stack_spec _ L2);
      [|apply Hfm; exact Hne|apply Forall_fmap, Forall_forall; intros g Hg; apply (HL g Hg)].
    cbn [bindR].
    rewrite (stack_spec _ L3);
      [|apply Hfm; exact Hne|apply Forall_fmap, Forall_forall; intros g Hg; apply (HL g Hg)].
    cbn [bindR]. eauto.
  - intros e He. unfold data_collator in He.
    destruct (torch.stack ((fun f => f.1.1) <$> batch)) as [e1|r1] eqn:E1.
    { injection He as <-. exact (stack_inl _ _ E1). }
    destruct (torch.stack ((fun f => f.1.2) <$> batch)) as [e2|r2] eqn:E2.
    { injection He as <-. exact (stack_inl _ _ E2). }
    destruct (torch.stack ((fun f => f.2) <$> batch)) as [e3|r3] eqn:E3.
    { injection He as <-. exact (stack_inl _ _ E3). }
    discriminate.
Qed.

(** X4 on a batch whose three components have the lengths 2, 1 and 3. *)
Lemma data_collator_succeeds_iff_witness :
  exists m, data_collator [([1; 2], [1], [3; 4; 5]); ([6; 7], [0], [8; 9; 10])] = inr m.
Proof.
  apply (proj2 (proj1 (data_collator_succeeds_iff
                         [([1; 2], [1], [3; 4; 5]); ([6; 7], [0], [8; 9; 10])]))).
  split; [discriminate|]. exists 2%nat, 1%nat, 3%nat. intros g Hg.
  apply elem_of_cons in Hg as [->|Hg]; [repeat split; reflexivity|].
  apply list_elem_of_singleton in Hg as ->. repeat split; reflexivity.
Defined.

(** ** call_model at the edges *)

(** X5: with no prompts and a positive batch size [call_model] returns no
    answers without calling the model, and without looking at the pad token:
    it succeeds even with a tokenizer that has none. *)
Theorem call_model_no_prompts w round m batch_size max_length :
  0 < batch_size ->
  call_model w round m [] batch_size max_length = (inr [], []).
Proof.
  intros Hbs. apply call_model_no_batches. apply prompt_batches_nil. exact Hbs.
Qed.

(** X5 with the tokenizer as loaded, which has no pad token. *)
Lemma call_model_no_prompts_witness :
  call_model demo.world 0 {| weights := VNone; tok := demo.pretrained |} [] 16 500
  = (inr [], []).
Proof. apply call_model_no_prompts. lia. Defined.

(** X6: a batch size that is not positive is never rejected as such.  With
    0 the batch count divides by zero.  With a negative size and two or more
    prompts the batch count is zero or negative, the loop body never runs and
    an empty list of answers is returned: every prompt is dropped silently.
    With a negative size and at most one prompt the first batch is empty and
    padding it fails.  In no case is the model called. *)
Theorem call_model_batch_size_not_positive w round m prompts batch_size max_length :
  batch_size <= 0 ->
  (batch_size = 0 ->
   call_model w round m prompts batch_size max_length = (inl ZeroDivisionError, [])) /\
  (batch_size < 0 -> 2 <= len prompts ->
   call_model w round m prompts batch_size max_length = (inr [], [])) /\
  (batch_size < 0 -> len prompts <= 1 ->
   forall pad, padding_value (tok m) = inr pad ->
   call_model w round m prompts batch_size max_length
   = (inl (RuntimeError "received an empty list of sequences"), [])).
Proof.
  intros _.
  assert (Hlen : len (encode (tok m) <$> prompts) = len prompts)
    by (unfold len; rewrite length_fmap; reflexivity).
  split; [intros ->; reflexivity|]. split.
  - intros Hbs Hn. apply call_model_no_batches.
    unfold prompt_batches, num_batches, floordiv.
    destruct (batch_size =? 0) eqn:E; [apply Z.eqb_eq in E; lia|]. cbn [bindR].
    rewrite Hlen.
    assert (Hq : (len prompts + batch_size - 1) / batch_size <= 0).
    { pose proof (Z.div_mod (len prompts + batch_size - 1) batch_size ltac:(lia)) as Hdm.
      pose proof (Z.mod_neg_bound (len prompts + batch_size - 1) batch_size Hbs) as Hmod.
      nia. }
    unfold py_range. replace (Z.to_nat _) with 0%nat by lia. reflexivity.
  - intros Hbs Hn pad Hpad. unfold call_model, prompt_batches, num_batches, floordiv.
    destruct (batch_size =? 0) eqn:E; [apply Z.eqb_eq in E; lia|]. cbn [bindR].
    rewrite bindM_lift_inr, Hlen.
    assert (H0 : 0 <= len prompts) by (unfold len; lia).
    assert (Hq : 1 <= (len prompts + batch_size - 1) / batch_size).
    { pose proof (Z.div_mod (len prompts + batch_size - 1) batch_size ltac:(lia)) as Hdm.
      pose proof (Z.mod_neg_bound (len prompts + batch_size - 1) batch_size Hbs) as Hmod.
      nia. }
    unfold py_range.
    destruct (Z.to_nat ((len prompts + batch_size - 1) / batch_size)) as [|k] eqn:Ek; [lia|].
    cbn [seq fmap list_fmap].
    assert (Hfirst : py_slice (encode (tok m) <$> prompts)
                       (Z.of_nat 0 * batch_size) ((Z.of_nat 0 + 1) * batch_size) = []).
    { unfold py_slice, slice_index. rewrite Hlen.
      replace (Z.of_nat 0 * batch_size) with 0 by lia.
      replace ((Z.of_nat 0 + 1) * batch_size) with batch_size by lia.
      destruct (batch_size <? 0) eqn:E1; [|apply Z.ltb_ge in E1; lia].
      replace (Z.to_nat (Z.max 0 (Z.min (len prompts) (batch_size + len prompts)) -
                         Z.max 0 (Z.min (len prompts) (if 0 <? 0 then 0 + len prompts else 0))))
        with 0%nat by (cbn [Z.ltb Z.compare]; lia).
      reflexivity. }
    rewrite Hfirst. cbn [call_model_loop]. rewrite Hpad, bindM_lift_inr. reflexivity.
Qed.

(** X6 with three prompts and with one prompt. *)
Lemma call_model_batch_size_not_positive_witness :
  call_model demo.world 0 demo.sampler ["ab"; "c"; "def"] 0 500 = (inl ZeroDivisionError, []) /\
  call_model demo.world 0 demo.sampler ["ab"; "c"; "def"] (-2) 500 = (inr [], []) /\
  call_model demo.world 0 demo.sampler ["ab"] (-2) 500
  = (inl (RuntimeError "received an empty list of sequences"), []).
Proof.
  split; [|split].
  - apply (call_model_batch_size_not_positive demo.world 0 demo.sampler
             ["ab"; "c"; "def"] 0 500); [lia|reflexivity].
  - apply (call_model_batch_size_not_positive demo.world 0 demo.sampler
             ["ab"; "c"; "def"] (-2) 500); [lia|lia|vm_compute; discriminate].
  - apply (call_model_batch_size_not_positive demo.world 0 demo.sampler
             ["ab"] (-2) 500 ltac:(lia)) with (pad := 35);
      [lia|vm_compute; discriminate|reflexivity].
Defined.

(** X7: when the padding value cannot be obtained (the tokenizer has no pad
    token, or encodes it to nothing) [call_model] on a non-empty prompt list
    raises that error at the first batch, before the model is called. *)
Theorem call_model_without_pad_token w round m prompts batch_size max_length e :
  padding_value (tok m) = inl e -> prompts <> [] -> 0 < batch_size ->
  call_model w round m prompts batch_size max_length = (inl e, []) /\
  (e = IndexError \/ exists msg args, e = ValueError msg args).
Proof.
  intros Hpad Hne Hbs. split.
  - unfold call_model. rewrite prompt_batches_spec by exact Hbs.
    rewrite bindM_lift_inr.
    assert (Hlen : 0 < len (encode (tok m) <$> prompts)).
    { unfold len. rewrite length_fmap. destruct prompts; [congruence|simpl; lia]. }
    destruct (num_batches_ceil (len (encode (tok m) <$> prompts)) batch_size
                (Z.lt_le_incl _ _ Hlen) Hbs) as [Hnb0 Hnb].
    assert (Hnb1 : 0 < (len (encode (tok m) <$> prompts) + batch_size - 1) / batch_size).
    { set (nb := (len (encode (tok m) <$> prompts) + batch_size - 1) / batch_size) in *.
      destruct (Z_lt_le_dec 0 nb) as [Hpos|Hnp]; [exact Hpos|].
      assert (nb * batch_size <= 0) by nia. lia. }
    destruct (Z.to_nat ((len (encode (tok m) <$> prompts) + batch_size - 1) / batch_size))
      as [|k] eqn:Ek; [lia|].
    unfold chunks. cbn [seq fmap list_fmap call_model_loop].
    rewrite Hpad. reflexivity.
  - unfold padding_value in Hpad. destruct (pad_token (tok m)) as [p|].
    + destruct (encode (tok m) p); [|discriminate]. injection Hpad as <-. auto.
    + injection Hpad as <-. eauto.
Qed.

(** X7 with the tokenizer as loaded, which has no pad token. *)
Lemma call_model_without_pad_token_witness :
  call_model demo.world 0 {| weights := VNone; tok := demo.pretrained |} ["ab"] 16 500
  = (inl (ValueError "text input must of type str" []), []).
Proof.
  apply (call_model_without_pad_token demo.world 0
           {| weights := VNone; tok := demo.pretrained |} ["ab"] 16 500);
    [reflexivity|discriminate|lia].
Defined.

(** ** on_evaluate, completely *)

(** X8: when the eval dataset has no prompts (as for datasets with fewer
    than 50 rows, whose eval shard is empty) [on_evaluate] never calls the
    model and needs no pad token; on rank 0 it logs a table without rows. *)
Theorem on_evaluate_without_prompts w round m (dataset : sft_dataset) :
  prompts dataset = [] ->
  on_evaluate w round m dataset
  = (inr tt,
     if rank w =? 0
     then [EWandbLog "generations" {| columns := ["prompts"; "responses"]; data := [] |}]
     else []).
Proof.
  intros Hp. unfold on_evaluate. rewrite Hp.
  rewrite py_slice_prefix by lia. cbn [take].
  rewrite call_model_no_batches by (apply prompt_batches_nil; lia).
  unfold bindM.
  destruct (rank w =? 0); reflexivity.
Qed.

(** X8 on an adapter over no rows, on rank 0. *)
Lemma on_evaluate_without_prompts_witness :
  on_evaluate demo.world 0 demo.sampler (make_dataset demo.world SFTDataset [])
  = (inr tt, [EWandbLog "generations" {| columns := ["prompts"; "responses"]; data := [] |}]).
Proof.
  apply (on_evaluate_without_prompts demo.world 0 demo.sampler
           (make_dataset demo.world SFTDataset [])).
  reflexivity.
Defined.

(** X9: when the eval dataset has prompts and the tokenizer yields a padding
    value, [on_evaluate] calls the model exactly once, with max_length 500, on
    one left-padded batch holding the first min(16, n) prompts; it succeeds,
    and on rank 0 the call is followed by the log of the table that pairs
    these prompts with the decoded rows of that one sample.  On every other
    rank the model is still called, and nothing is logged. *)
Theorem on_evaluate_one_generate_call w round m (dataset : sft_dataset) pad :
  prompts dataset <> [] -> padding_value (tok m) = inr pad ->
  let sampled := take 16 (prompts dataset) in
  let rows := padded_batch pad (encode (tok m) <$> sampled) in
  let responses := decode (tok m) <$> generate w round 0 rows 500 in
  on_evaluate w round m dataset
  = (inr tt,
     EGenerate rows 500 ::
     if rank w =? 0
     then [EWandbLog "generations"
             {| columns := ["prompts"; "responses"];
                data := zip_with (fun prompt response => [prompt; response])
                          sampled responses |}]
     else []) /\
  length rows = Nat.min 16 (length (prompts dataset)).
Proof.
  intros Hne Hpad sampled rows responses. split.
  - unfold on_evaluate. rewrite py_slice_prefix by lia.
    change (Z.to_nat 16) with 16%nat. fold sampled.
    rewrite (call_model_single_batch w round m pad sampled 16 500 Hpad).
    + unfold bindM. fold rows. unfold batch_answers. fold rows. fold responses.
      destruct (rank w =? 0); reflexivity.
    + unfold len, sampled. rewrite length_take.
      destruct (prompts dataset); [congruence|simpl length; lia].
  - unfold rows, padded_batch, sampled. rewrite !length_fmap. apply length_take.
Qed.

(** X9 on the eval shard of the concrete run, on rank 1. *)
Lemma on_evaluate_one_generate_call_witness :
  let dataset := make_dataset demo.world MaskedSFTDataset (take 2 demo.dataset) in
  on_evaluate (demo.world_of_rank 1) 0 demo.sampler dataset
  = (inr tt, [EGenerate [[97; 98]; [35; 99]] 500]).
Proof.
  intros dataset.
  apply (on_evaluate_one_generate_call (demo.world_of_rank 1) 0 demo.sampler dataset 35);
    [discriminate|reflexivity].
Defined.

(** ** Every call of the model in a run of train *)

Lemma emits_mono {A} (P Q : event -> Prop) (m : M A) :
  (forall e, P e -> Q e) -> emits P m -> emits Q m.
Proof. intros H Hm. exact (Forall_impl _ _ _ Hm H). Qed.

Lemma flip_pad_flip_inr batch pad rows :
  flip_pad_flip batch pad = inr rows -> batch <> [] /\ rows = padded_batch pad batch.
Proof.
  intros H. destruct batch as [|p ps]; [discriminate|].
  rewrite flip_pad_flip_spec in H by discriminate. injection H as <-.
  split; [discriminate|reflexivity].
Qed.

Lemma call_model_loop_generates w round m max_length bound i batches answers :
  Forall (fun b => (length b <= bound)%nat) batches ->
  emits (generate_call m max_length bound)
    (call_model_loop w round m max_length i batches answers).
Proof.
  intros Hb. revert i answers.
  induction Hb as [|b rest Hlen Hrest IH]; intros i answers; cbn [call_model_loop].
  - apply emits_ret.
  - repeat emits_step; [|apply IH]. cbn [lift fst] in *.
    match goal with
    | Hp : padding_value _ = inr ?pad, Hf : flip_pad_flip b ?pad = inr _ |- _ =>
        destruct (flip_pad_flip_inr _ _ _ Hf) as [Hne ->];
        split; [reflexivity|]; exists pad, b; split; [exact Hp|]; split; [|reflexivity];
        destruct b; [congruence|simpl length in *; lia]
    end.
Qed.

Lemma call_model_generates w round m prompts batch_size max_length :
  0 < batch_size ->
  emits (generate_call m max_length (Z.to_nat batch_size))
    (call_model w round m prompts batch_size max_length).
Proof.
  intros Hbs. unfold call_model. rewrite prompt_batches_spec by exact Hbs.
  rewrite bindM_lift_inr. apply call_model_loop_generates.
  apply Forall_forall. intros b Hin. apply list_elem_of_lookup in Hin as [i Hi].
  rewrite chunks_lookup in Hi. destruct (decide _); [|discriminate].
  injection Hi as <-. rewrite length_take. lia.
Qed.

Lemma on_evaluate_generates w round m dataset :
  emits (generate_call m 500 16) (on_evaluate w round m dataset).
Proof.
  unfold on_evaluate. repeat emits_step; try exact I.
  apply (call_model_generates w round m _ 16 500). lia.
Qed.

Lemma on_evaluate_sampling_call w round m dataset :
  emits (sampling_call m (prompts dataset)) (on_evaluate w round m dataset).
Proof.
  apply Forall_forall. intros [] Hin; try exact I. cbn [sampling_call].
  pose proof (proj1 (Forall_forall _ _) (on_evaluate_generates w round m dataset) _ Hin)
    as [-> (pad & b & Hpad & _ & _)].
  split; [reflexivity|]. exists pad. split; [exact Hpad|].
  rewrite on_evaluate_run in Hin.
  destruct (take 16 (prompts dataset)) as [|p ps] eqn:E.
  - exfalso. rewrite call_model_no_batches in Hin by (apply prompt_batches_nil; lia).
    cbn [fst snd app] in Hin.
    destruct (rank w =? 0); [|apply elem_of_nil in Hin; contradiction].
    apply list_elem_of_singleton in Hin. discriminate.
  - split; [discriminate|].
    assert (Hn : 0 < len (p :: ps) <= 16).
    { rewrite <- E. unfold len. rewrite length_take.
      destruct (prompts dataset); [discriminate|simpl length; lia]. }
    rewrite (call_model_single_batch w round m pad (p :: ps) 16 500 Hpad Hn) in Hin.
    cbn [fst snd app] in Hin.
    apply elem_of_cons in Hin as [Hin|Hin]; [injection Hin as ->; reflexivity|].
    exfalso. destruct (rank w =? 0); [|apply elem_of_nil in Hin; contradiction].
    apply list_elem_of_singleton in Hin. discriminate.
Qed.

Lemma trainer_loop_sampling_call w m dataset steps round :
  emits (sampling_call m (prompts dataset)) (trainer_loop w m dataset steps round).
Proof.
  revert round. induction steps as [|[| |e] rest IH]; intros round; cbn [trainer_loop].
  - apply emits_ret.
  - apply IH.
  - repeat emits_step; [apply on_evaluate_sampling_call|apply IH].
  - apply emits_raise.
Qed.

Lemma trainer_train_sampling_call w m dataset :
  emits (sampling_call m (prompts dataset)) (trainer_train w m dataset).
Proof.
  unfold trainer_train. repeat emits_step; try exact I.
  apply trainer_loop_sampling_call.
Qed.

(** X10: every call of the model during a run of [train] comes from the
    sampling callback and is determined by the configuration: max_length is
    500, and the batch is the left-padded encoding, by the tokenizer loaded
    from [config["tokenizer_path"]], of the first 16 prompts (all of them
    when there are fewer; there is at least one) that the chosen adapter
    gives for the eval shard of the dataset at [config["data_path"]].  The
    padding is the first token id of the tokenizer's end-of-sequence token,
    which line 55 installs as the pad token.  Hence the batch has between 1
    and 16 rows of one length, row [i] being the tokens of the [i]-th of
    these prompts preceded by copies of that id. *)
Theorem train_generate_calls w config rows max_length :
  EGenerate rows max_length ∈ (train w config).2 ->
  max_length = 500 /\
  exists tokenizer_path data_path trainer adapter eval_data train_data pad rest,
    config !! "tokenizer_path" = Some tokenizer_path /\
    config !! "data_path" = Some data_path /\
    config !! "trainer" = Some trainer /\
    choose_adapter trainer = inr adapter /\
    split_dataset (load_dataset w data_path) = inr (eval_data, train_data) /\
    let t := from_pretrained w tokenizer_path in
    let sampled := take 16 (prompts (make_dataset w adapter eval_data)) in
    let batch := encode t <$> sampled in
    let longest := max_list (length <$> batch) in
    encode t (eos_token t) = pad :: rest /\
    sampled <> [] /\
    rows = padded_batch pad batch /\
    (0 < length rows <= 16)%nat /\
    length rows = length sampled /\
    forall i row, rows !! i = Some row ->
      length row = longest /\
      exists prompt,
        sampled !! i = Some prompt /\
        row = replicate (longest - length (encode t prompt)) pad ++ encode t prompt.
Proof.
  set (Q := fun e =>
    match e with
    | EGenerate rows ml =>
        ml = 500 /\
        exists tp dp trainer k ev tr pad rest,
          config !! "tokenizer_path" = Some tp /\
          config !! "data_path" = Some dp /\
          config !! "trainer" = Some trainer /\
          choose_adapter trainer = inr k /\
          split_dataset (load_dataset w dp) = inr (ev, tr) /\
          encode (from_pretrained w tp) (eos_token (from_pretrained w tp)) = pad :: rest /\
          take 16 (prompts (make_dataset w k ev)) <> [] /\
          rows = padded_batch pad
                   (encode (from_pretrained w tp) <$> take 16 (prompts (make_dataset w k ev)))
    | _ => True
    end).
  assert (H : emits Q (train w config)).
  { unfold train. repeat emits_step; try exact I.
    eapply emits_mono; [|apply trainer_train_sampling_call].
    intros [] He; try exact I. cbn [lift fst] in *.
    destruct He as [-> (pad & Hpad & Hne & ->)].
    split; [reflexivity|].
    repeat match goal with
    | Hg : getitem _ ?key = inr _ |- _ =>
        unfold getitem in Hg; rewrite !lookup_insert_ne in Hg by discriminate;
        let E := fresh "E" in
        destruct (config !! key) eqn:E; [|discriminate];
        injection Hg as ->
    end.
    unfold padding_value in Hpad. cbn [tok pad_token encode] in Hpad.
    match type of Hpad with
    | match ?x with _ => _ end = _ => destruct x as [|v rest] eqn:Eenc; [discriminate|]
    end.
    injection Hpad as ->. cbn [tok encode] in *.
    eauto 20. }
  intros Hin. pose proof (proj1 (Forall_forall _ _) H _ Hin) as HQ.
  unfold Q in HQ.
  destruct HQ as [-> (tp & dp & trainer & k & ev & tr & pad & rest
                      & Htp & Hdp & Htr & Hk & Hsplit & Henc & Hne & ->)].
  split; [reflexivity|].
  exists tp, dp, trainer, k, ev, tr, pad, rest.
  split; [exact Htp|]. split; [exact Hdp|]. split; [exact Htr|]. split; [exact Hk|].
  split; [exact Hsplit|]. intros t sampled batch longest.
  split; [exact Henc|]. split; [exact Hne|]. split; [reflexivity|].
  assert (Hlen : length (padded_batch pad batch) = length sampled)
    by (unfold padded_batch, batch; rewrite !length_fmap; reflexivity).
  change (encode (from_pretrained w tp) <$> take 16 (prompts (make_dataset w k ev)))
    with batch.
  split.
  { rewrite Hlen.
    assert (Hs : (length sampled <= 16)%nat) by (unfold sampled; rewrite length_take; lia).
    assert (Hpos : length sampled <> 0%nat)
      by (intros E; apply Hne, nil_length_inv; exact E).
    lia. }
  split; [exact Hlen|].
  intros i row Hi. unfold padded_batch in Hi. fold longest in Hi.
  rewrite list_lookup_fmap in Hi.
  destruct (batch !! i) as [q|] eqn:Eq; [|discriminate]. injection Hi as <-.
  assert (Hle : (length q <= longest)%nat).
  { apply max_list_elem_of_le, list_elem_of_fmap. exists q. split; [reflexivity|].
    apply list_elem_of_lookup. eauto. }
  split; [unfold left_padded; rewrite length_app, length_replicate; lia|].
  unfold batch in Eq. rewrite list_lookup_fmap in Eq.
  destruct (sampled !! i) as [prompt|] eqn:Ep; [|discriminate]. injection Eq as <-.
  exists prompt. split; reflexivity.
Qed.

(** X10 on the concrete run, whose tenth event is the one call of the model:
    the batch holds the two prompts of the eval shard, "ab" and "c", the
    second one padded with 35, the id of "#". *)
Lemma train_generate_calls_witness :
  exists rows, (train demo.world demo.config).2 !! 9%nat = Some (EGenerate rows 500) /\
               rows = [[97; 98]; [35; 99]].
Proof.
  assert (H : exists rows, (train demo.world demo.config).2 !! 9%nat
                           = Some (EGenerate rows 500)).
  { vm_compute. eexists. reflexivity. }
  destruct H as [rows Hrows]. exists rows. split; [exact Hrows|].
  assert (Hin : EGenerate rows 500 ∈ (train demo.world demo.config).2)
    by (apply list_elem_of_lookup; exists 9%nat; exact Hrows).
  destruct (train_generate_calls demo.world demo.config rows 500 Hin)
    as (_ & tp & dp & trainer & k & ev & tr & pad & rest
        & Htp & Hdp & Htr & Hk & Hsplit & Henc & _ & Hrows' & _).
  vm_compute in Htp, Hdp, Htr. injection Htp as <-. injection Hdp as <-. injection Htr as <-.
  vm_compute in Hk. injection Hk as <-.
  vm_compute in Hsplit. injection Hsplit as <- <-.
  vm_compute in Henc. injection Henc as <- <-.
  rewrite Hrows'. vm_compute. reflexivity.
Defined.

(** ** The update of line 53 *)

(** X11: the two settings that line 53 adds go into the top level of the
    configuration, where they override values of the same name, and nowhere
    else.  Tracking is initialised with project "tclx" and this updated
    configuration, while the argument object of the framework is built from
    the dictionary stored under "train_args" as it is, so it receives neither
    setting unless that dictionary already had it. *)
Theorem update_reaches_tracking_only w (config : gmap string pyval) :
  let updated := <["fp16_full_eval" := VBool true]>
                   (<["eval_accumulation_steps" := VInt 2]> config) in
  (forall project c, EWandbInit project c ∈ (train w config).2 ->
                     project = "tclx" /\ c = updated) /\
  (forall kw, ETrainingArguments kw ∈ (train w config).2 ->
              config !! "train_args" = Some (VDict kw)) /\
  updated !! "eval_accumulation_steps" = Some (VInt 2) /\
  updated !! "fp16_full_eval" = Some (VBool true) /\
  (forall k, k <> "fp16_full_eval" -> k <> "eval_accumulation_steps" ->
             updated !! k = config !! k).
Proof.
  intros updated. split; [|split; [|split; [|split]]].
  - set (P := fun e => forall project c, e = EWandbInit project c ->
                                         project = "tclx" /\ c = updated).
    assert (H : emits P (train w config)).
    { unfold train. repeat emits_step; try (intros ? ? ?; discriminate).
      - intros project c [= <- <-]. split; reflexivity.
      - apply trainer_train_emits; intros; intros ? ? ?; discriminate. }
    intros project c Hin. exact (proj1 (Forall_forall _ _) H _ Hin project c eq_refl).
  - intros kw. apply train_training_arguments.
  - unfold updated. rewrite lookup_insert_ne by discriminate. apply lookup_insert_eq.
  - apply lookup_insert_eq.
  - intros k H1 H2. unfold updated. rewrite !lookup_insert_ne by congruence. reflexivity.
Qed.

(** X11 on the concrete run. *)
Lemma update_reaches_tracking_only_witness :
  exists c, EWandbInit "tclx" c ∈ (train demo.world demo.config).2 /\
            c !! "fp16_full_eval" = Some (VBool true) /\
            c !! "train_args" = demo.config !! "train_args".
Proof.
  assert (H : exists c, (train demo.world demo.config).2 !! 5%nat
                        = Some (EWandbInit "tclx" c)).
  { vm_compute. eexists. reflexivity. }
  destruct H as [c Hc]. exists c.
  assert (Hin : EWandbInit "tclx" c ∈ (train demo.world demo.config).2)
    by (apply list_elem_of_lookup; exists 5%nat; exact Hc).
  split; [exact Hin|].
  destruct (update_reaches_tracking_only demo.world demo.config)
    as (Hinit & _ & _ & Hfp & Hother).
  destruct (Hinit _ _ Hin) as [_ ->].
  split; [exact Hfp|]. apply Hother; discriminate.
Defined.

(** ** The script body *)

(** X12: what the script body does is decided by the loaded YAML.  When it
    is a mapping whose "train_args" entry is itself a mapping, [main] is
    [train] on the configuration with the deepspeed entry stored.  In every
    other case it fails at line 105, before calling anything, with an empty
    trace: TypeError when the YAML is not a mapping, KeyError when it has no
    "train_args", TypeError when that entry is not a mapping.  So [main]
    reaches [train], and with it any library call, only in the first
    case. *)
Theorem main_needs_train_args w args :
  let loaded := load_yaml w (of_option_str (config_path args)) in
  let well_formed := exists yaml train_args,
    loaded = VDict yaml /\ yaml !! "train_args" = Some (VDict train_args) in
  main w args
  = match loaded with
    | VDict yaml =>
        match yaml !! "train_args" with
        | Some (VDict train_args) =>
            train w (<["train_args" :=
                         VDict (<["deepspeed" := of_option_str (ds_config_path args)]>
                                  train_args)]> yaml)
        | Some _ => (inl (TypeError "item assignment"), [])
        | None => (inl (KeyError "train_args"), [])
        end
    | _ => (inl (TypeError "subscript"), [])
    end /\
  (~ well_formed ->
   exists e, main w args = (inl e, []) /\
             (e = TypeError "subscript" \/ e = KeyError "train_args" \/
              e = TypeError "item assignment")) /\
  (forall e, e ∈ (main w args).2 -> well_formed).
Proof.
  intros loaded well_formed.
  assert (Hrun : main w args
    = match loaded with
      | VDict yaml =>
          match yaml !! "train_args" with
          | Some (VDict train_args) =>
              train w (<["train_args" :=
                           VDict (<["deepspeed" := of_option_str (ds_config_path args)]>
                                    train_args)]> yaml)
          | Some _ => (inl (TypeError "item assignment"), [])
          | None => (inl (KeyError "train_args"), [])
          end
      | _ => (inl (TypeError "subscript"), [])
      end).
  { destruct loaded as [| | | | | |yaml] eqn:El; unfold main; fold loaded; rewrite El;
      try reflexivity.
    cbn [subscript]. unfold getitem.
    destruct (yaml !! "train_args") as [v|] eqn:Ev; [|reflexivity].
    rewrite bindM_lift_inr. destruct v; try reflexivity.
    cbn [store_subscript]. rewrite bindM_lift_inr. reflexivity. }
  split; [exact Hrun|]. rewrite Hrun. unfold well_formed. clear Hrun. split.
  - intros Hwf.
    destruct loaded as [| | | | | |yaml]; eauto 6.
    destruct (yaml !! "train_args") as [v|] eqn:Ev; [|eauto 6].
    destruct v; eauto 6. exfalso. apply Hwf. eauto.
  - intros e Hin.
    destruct loaded as [| | | | | |yaml];
      try (apply elem_of_nil in Hin; contradiction).
    destruct (yaml !! "train_args") as [v|] eqn:Ev;
      [|apply elem_of_nil in Hin; contradiction].
    destruct v; try (apply elem_of_nil in Hin; contradiction).
    eauto.
Qed.

(** X12 on the concrete run, and on a YAML file without train_args. *)
Lemma main_needs_train_args_witness :
  main demo.world demo.args = train demo.world demo.config /\
  main {| rank := 0; load_yaml := fun _ => VDict (delete "train_args" demo.yaml);
          from_pretrained := from_pretrained demo.world;
          load_dataset := load_dataset demo.world;
          adapter_prompts := adapter_prompts demo.world;
          generate := generate demo.world; schedule := schedule demo.world |}
       demo.args
  = (inl (KeyError "train_args"), []).
Proof.
  split.
  - exact (proj1 (main_needs_train_args demo.world demo.args)).
  - exact (proj1 (main_needs_train_args _ demo.args)).
Defined.

(** ** When the trainer key is checked *)

Section LateValidation.

Variable w : World.
Variable config : gmap string pyval.
Variables tokenizer_path model_path data_path : pyval.
Variable train_args : gmap string pyval.

Hypothesis Htokenizer_path : config !! "tokenizer_path" = Some tokenizer_path.
Hypothesis Htrain_args : config !! "train_args" = Some (VDict train_args).
Hypothesis Hmodel_path : config !! "model_path" = Some model_path.
Hypothesis Hdata_path : config !! "data_path" = Some data_path.
Hypothesis Hsize : len (load_dataset w data_path) < 2 ^ 1023.

(** X13: the trainer key is looked at last.  When it is missing
    (KeyError) or has an unsupported value (ValueError), the error is raised
    only after the tokenizer and the model have been loaded, the model moved
    to the GPU, the dataset loaded and split and, on rank 0, the tracking run
    initialised; the trace of the failed run is exactly these calls. *)
Theorem trainer_key_checked_last e :
  (try trainer <- getitem config "trainer"; choose_adapter trainer) = inl e ->
  exists eval_data data,
    split_dataset (load_dataset w data_path) = inr (eval_data, data) /\
    train w config
    = (inl e,
       [ETokenizerFromPretrained tokenizer_path; ETrainingArguments train_args;
        EModelFromPretrained model_path; EModelCuda; ELoadDataset data_path]
       ++ (if rank w =? 0
           then [EWandbInit "tclx"
                   (<["fp16_full_eval" := VBool true]>
                      (<["eval_accumulation_steps" := VInt 2]> config))]
           else [])
       ++ [EPrint "Len data: " (len data)]).
Proof.
  intros He.
  destruct (split_dataset_total _ Hsize) as (eval_data & data & Hs).
  exists eval_data, data. split; [exact Hs|].
  pose proof (getitem_updated config "tokenizer_path" _ ltac:(discriminate)
                ltac:(discriminate) Htokenizer_path) as G1.
  pose proof (getitem_updated config "train_args" _ ltac:(discriminate)
                ltac:(discriminate) Htrain_args) as G2.
  pose proof (getitem_updated config "model_path" _ ltac:(discriminate)
                ltac:(discriminate) Hmodel_path) as G3.
  pose proof (getitem_updated config "data_path" _ ltac:(discriminate)
                ltac:(discriminate) Hdata_path) as G4.
  set (config' := <["fp16_full_eval" := VBool true]>
                    (<["eval_accumulation_steps" := VInt 2]> config)) in *.
  assert (G5 : getitem config' "trainer" = getitem config "trainer").
  { unfold getitem, config'. rewrite !lookup_insert_ne by discriminate. reflexivity. }
  set (tracking_init := if rank w =? 0 then [EWandbInit "tclx" config'] else []).
  assert (Hrun : forall X (k : unit -> M X),
             bindM (if rank w =? 0 then emit (EWandbInit "tclx" config') else ret tt) k
             = ((k tt).1, tracking_init ++ (k tt).2)).
  { intros X k. unfold tracking_init. destruct (rank w =? 0).
    - apply bindM_emit.
    - rewrite bindM_ret. destruct (k tt). reflexivity. }
  assert (Htail : forall (k : adapter -> M unit),
             (do trainer <- lift (getitem config' "trainer");
              do adapter <- lift (choose_adapter trainer); k adapter) = (inl e, [])).
  { intros k. rewrite G5. unfold bindR in He.
    destruct (getitem config "trainer") as [e1|v].
    - injection He as ->. reflexivity.
    - rewrite bindM_lift_inr, He. reflexivity. }
  apply injective_projections.
  - unfold train. fold config'. cbv zeta.
    rewrite G1, bindM_lift_inr, outcome_emit, G2, bindM_lift_inr. cbn [kwargs].
    rewrite bindM_lift_inr, outcome_emit, G3, bindM_lift_inr, !outcome_emit,
      G4, bindM_lift_inr, outcome_emit, Hs, bindM_lift_inr, Hrun.
    cbn [fst]. rewrite outcome_emit, Htail. reflexivity.
  - unfold train. fold config'. cbv zeta.
    rewrite G1, bindM_lift_inr, trace_emit, G2, bindM_lift_inr. cbn [kwargs].
    rewrite bindM_lift_inr, trace_emit, G3, bindM_lift_inr, !trace_emit,
      G4, bindM_lift_inr, trace_emit, Hs, bindM_lift_inr, Hrun.
    cbn [snd]. rewrite trace_emit, Htail. reflexivity.
Qed.

End LateValidation.

(** X13 on the concrete configuration without its trainer key. *)
Lemma trainer_key_checked_last_witness :
  exists eval_data data,
    split_dataset (load_dataset demo.world (VStr "data")) = inr (eval_data, data) /\
    train demo.world (delete "trainer" demo.config)
    = (inl (KeyError "trainer"),
       [ETokenizerFromPretrained (VStr "gpt2");
        ETrainingArguments (<["deepspeed" := VStr "ds.json"]> demo.train_args);
        EModelFromPretrained (VStr "gpt2"); EModelCuda; ELoadDataset (VStr "data")]
       ++ (if rank demo.world =? 0
           then [EWandbInit "tclx"
                   (<["fp16_full_eval" := VBool true]>
                      (<["eval_accumulation_steps" := VInt 2]>
                         (delete "trainer" demo.config)))]
           else [])
       ++ [EPrint "Len data: " (len data)]).
Proof.
  apply (trainer_key_checked_last demo.world (delete "trainer" demo.config)
           (VStr "gpt2") (VStr "gpt2") (VStr "data")
           (<["deepspeed" := VStr "ds.json"]> demo.train_args));
    reflexivity.
Defined.
